(** * uHand example sketches: servo action player and ESP32-Cam I2C link

    Shallow embedding of
    - [examples/uhand_actions/uhand_servo.cpp]         (table-driven player),
    - [examples/uhand_actions_simple/uhand_servo.cpp]  (single-shot player),
    - [examples/uhand_colors_clamp_esp32cam/hw_esp32cam_ctl.cpp] and
      [examples/uhand_colors_trace_esp32cam/hw_esp32cam_ctl.cpp] (camera link),
    followed by the properties of the specification that concern them. *)

From Stdlib Require Import ZArith Lia Bool.
From Stdlib.Strings Require Import Byte.
From stdpp Require Import base tactics option list vector.

Local Open Scope Z_scope.

(** ** Machine integers *)

(** [uint8_t] and [uint32_t] values are integers reduced modulo 2^8 and
    2^32. *)
Definition to_uint8 (v : Z) : Z := v mod 256.
Definition to_uint32 (v : Z) : Z := v mod 4294967296.

Definition is_uint8 (v : Z) : bool := (0 <=? v) && (v <? 256).

(** C array subscript: [l[i]] is defined only inside the array. *)
Definition index {A : Type} (l : list A) (i : Z) : option A :=
  if i <? 0 then None else l !! Z.to_nat i.

(** ** The action player: data *)

(** [HW_ACTION_CTL] together with the function-local statics of
    [action_task], which persist from call to call. *)
Record Player : Type := mkPlayer {
  action_num : Z;                    (* int action_num = 0 *)
  extended_func_angles : vec Z 6;    (* uint8_t extended_func_angles[6] *)
  last_tick : Z;                     (* static uint32_t last_tick = 0 *)
  step : Z;                          (* static uint8_t step = 0 *)
  num : Z;                           (* static uint8_t num = 0 *)
  delay_count : Z                    (* static uint8_t delay_count = 0 *)
}.

(** The object as the header and the static initialisers leave it. *)
Definition power_on : Player :=
  mkPlayer 0 [# 0; 0; 0; 0; 0; 90] 0 0 0 0.

Definition with_action_num (v : Z) (s : Player) : Player :=
  mkPlayer v (extended_func_angles s) (last_tick s) (step s) (num s) (delay_count s).
Definition with_angles (a : vec Z 6) (s : Player) : Player :=
  mkPlayer (action_num s) a (last_tick s) (step s) (num s) (delay_count s).
Definition with_last_tick (v : Z) (s : Player) : Player :=
  mkPlayer (action_num s) (extended_func_angles s) v (step s) (num s) (delay_count s).
Definition with_step (v : Z) (s : Player) : Player :=
  mkPlayer (action_num s) (extended_func_angles s) (last_tick s) v (num s) (delay_count s).
Definition with_num (v : Z) (s : Player) : Player :=
  mkPlayer (action_num s) (extended_func_angles s) (last_tick s) (step s) v (delay_count s).
Definition with_delay_count (v : Z) (s : Player) : Player :=
  mkPlayer (action_num s) (extended_func_angles s) (last_tick s) (step s) (num s) v.

(** What a call does to the outside world besides changing the player:
    it evaluates entries of the action table and stores into
    [extended_func_angles]. *)
Inductive event : Type :=
| TableRead (subscripts : list Z)      (* action[i][j]... evaluated *)
| AngleWrite (i : nat) (v : Z).        (* extended_func_angles[i] = v *)

Definition is_write (e : event) : bool :=
  match e with AngleWrite _ _ => true | TableRead _ => false end.

(** The stores of a trace, in order. *)
Definition writes (tr : list event) : list event := List.filter is_write tr.

(** ** A small monad: player state, event trace, undefined behaviour

    A computation returns the events it performed and, unless it ran
    into an out-of-bounds table access ([None]), a value and the new
    player. *)
Definition M (A : Type) : Type := Player -> list event * option (A * Player).

Definition ret {A : Type} (a : A) : M A := fun s => ([], Some (a, s)).

Definition bind {A B : Type} (m : M A) (k : A -> M B) : M B := fun s =>
  match m s with
  | (tr, None) => (tr, None)
  | (tr, Some (a, s')) =>
      match k a s' with
      | (tr', r) => (tr ++ tr', r)
      end
  end.

Declare Scope player_scope.
Delimit Scope player_scope with player.
Notation "x <- m ;; k" := (bind m (fun x => k))
  (at level 100, m at next level, right associativity) : player_scope.
Notation "m ;; k" := (bind m (fun _ => k))
  (at level 100, right associativity) : player_scope.

Definition get {A : Type} (f : Player -> A) : M A := fun s => ([], Some (f s, s)).
Definition modify (f : Player -> Player) : M unit := fun s => ([], Some (tt, f s)).

(** [extended_func_angles[i] = v] with the conversion to [uint8_t]. *)
Definition set_angle (i : fin 6) (v : Z) : M unit := fun s =>
  ([AngleWrite (fin_to_nat i) (to_uint8 v)],
   Some (tt, with_angles (vinsert i (to_uint8 v) (extended_func_angles s)) s)).

(** The final player of a computation. *)
Definition player_of {A : Type} (r : list event * option (A * Player)) : option Player :=
  match snd r with Some (_, s) => Some s | None => None end.

(** [action_set] and [action_state_get] are the same in both sketches. *)
Definition action_set (n : Z) (s : Player) : Player := with_action_num n s.
Definition action_state_get (s : Player) : Z := action_num s.

(** The play-time guard [action_num != 0 && action_num <= action_count].
    [actions.h] is not part of the sources; [action_count] is taken as a
    constant that the usual arithmetic conversions leave signed, so the
    comparison is the one on [int]. *)
Definition in_play (action_count : Z) (s : Player) : bool :=
  negb (action_num s =? 0) && (action_num s <=? action_count).

(** ** Table-driven player ([examples/uhand_actions]) *)

Module TableDriven.
Section WithTable.

(** [action[action_count][frames][7]] and [action_count] from
    [actions.h], which is not part of the sources: parameters. *)
Variable action : list (list (list Z)).
Variable action_count : Z.

Definition table_get (r f c : Z) : option Z :=
  match index action r with
  | Some row =>
      match index row f with
      | Some frame => index frame c
      | None => None
      end
  | None => None
  end.

(** Evaluation of [action[r][f][c]]. *)
Definition read_action (r f c : Z) : M Z := fun s =>
  ([TableRead [r; f; c]],
   match table_get r f c with
   | Some v => Some (v, s)
   | None => None
   end).

(** [millis() - last_tick < 100] on [uint32_t]. *)
Definition gate_closed (now : Z) (s : Player) : bool :=
  to_uint32 (now - last_tick s) <? 100.

(** [action_task]; [now] and [now'] are the values of the first and of
    the second call of [millis()], which are [uint32_t] values: the
    store into [last_tick] does not change them. *)
Definition action_task (now now' : Z) : M unit :=
  (fun s =>
   if in_play action_count s then
     if gate_closed now s then ret tt s
     else
       (modify (with_last_tick now') ;;
        st <- get step ;;
        if st =? 0 then
          an <- get action_num ;;
          n <- get num ;;
          flag <- read_action (an - 1) n 0 ;;
          if negb (flag =? 0) then
            v1 <- read_action (an - 1) n 1 ;; set_angle 0%fin v1 ;;
            v2 <- read_action (an - 1) n 2 ;; set_angle 1%fin v2 ;;
            v3 <- read_action (an - 1) n 3 ;; set_angle 2%fin v3 ;;
            v4 <- read_action (an - 1) n 4 ;; set_angle 3%fin v4 ;;
            v5 <- read_action (an - 1) n 5 ;; set_angle 4%fin v5 ;;
            v6 <- read_action (an - 1) n 6 ;; set_angle 5%fin v6 ;;
            modify (with_step 1)
          else
            modify (with_num 0) ;;
            modify (with_action_num 0)
        else if st =? 1 then
          modify (fun s => with_delay_count (to_uint8 (delay_count s + 1)) s) ;;
          dc <- get delay_count ;;
          if 2 <? dc then
            modify (fun s => with_num (to_uint8 (num s + 1)) s) ;;
            modify (with_delay_count 0) ;;
            modify (with_step 0)
          else ret tt
        else
          modify (with_step 0))%player s
   else ret tt s).

(** The main loop calling [action_task] once per entry of [clk], the
    pairs of [millis()] readings of the successive calls. *)
Fixpoint run (clk : list (Z * Z)) : M unit :=
  match clk with
  | [] => ret tt
  | (now, now') :: clk' => (action_task now now' ;; run clk')%player
  end.

(** Every call of a run started with [last_tick = lt] finds the gate
    open, as long as each call stores its second reading. *)
Fixpoint gates_open (lt : Z) (clk : list (Z * Z)) : bool :=
  match clk with
  | [] => true
  | (now, now') :: clk' =>
      negb (to_uint32 (now - lt) <? 100) && gates_open now' clk'
  end.

(** The player after a WAIT call that passed the gate: the counter
    goes up; past 2 the frame index advances. *)
Definition waited (now' : Z) (s : Player) : Player :=
  let dc := to_uint8 (delay_count s + 1) in
  if 2 <? dc then
    with_step 0 (with_delay_count 0 (with_num (to_uint8 (num s + 1))
      (with_delay_count dc (with_last_tick now' s))))
  else with_delay_count dc (with_last_tick now' s).

(** The events of an APPLY call on frame [n] of row [r] with columns
    [v1 .. v6] after the flag. *)
Definition apply_events (r n v1 v2 v3 v4 v5 v6 : Z) : list event :=
  [ TableRead [r; n; 0];
    TableRead [r; n; 1]; AngleWrite 0 (to_uint8 v1);
    TableRead [r; n; 2]; AngleWrite 1 (to_uint8 v2);
    TableRead [r; n; 3]; AngleWrite 2 (to_uint8 v3);
    TableRead [r; n; 4]; AngleWrite 3 (to_uint8 v4);
    TableRead [r; n; 5]; AngleWrite 4 (to_uint8 v5);
    TableRead [r; n; 6]; AngleWrite 5 (to_uint8 v6) ].

(** A frame to be played: its seven columns are there, the flag in
    column 0 is not zero and the six joint values are [uint8_t]
    values. *)
Definition live_frame (f : list Z) : bool :=
  match f with
  | c0 :: v1 :: v2 :: v3 :: v4 :: v5 :: v6 :: _ =>
      negb (c0 =? 0) && forallb is_uint8 [v1; v2; v3; v4; v5; v6]
  | _ => false
  end.

(** The frame that ends a row: column 0 is zero. *)
Definition sentinel_frame (f : list Z) : bool :=
  match f with
  | c0 :: _ => c0 =? 0
  | [] => false
  end.

(** Columns 1..6 of a frame. *)
Definition joints (f : list Z) : list Z := take 6 (drop 1 f).

(** The stores that copy a frame into [extended_func_angles]. *)
Definition copy_of (f : list Z) : list event := imap AngleWrite (joints f).

(** [extended_func_angles] once [frames] have been copied one after the
    other over the angles [a]: the joints of the last frame. *)
Definition angles_after (frames : list (list Z)) (a : list Z) : list Z :=
  fold_left (fun _ f => joints f) frames a.

(** What a sketch can do with the player: request an action or call
    [action_task], in any order. *)
Inductive call : Type :=
| SetAction (n : Z)            (* action_set(n) *)
| Task (now now' : Z).         (* action_task() with its millis() readings *)

Fixpoint exec (calls : list call) : M unit :=
  match calls with
  | [] => ret tt
  | SetAction n :: calls' => (modify (action_set n) ;; exec calls')%player
  | Task now now' :: calls' => (action_task now now' ;; exec calls')%player
  end.

(** The values the statics and the angles can take: [step] is 0 or 1,
    [delay_count] is at most 2 and is 0 in the APPLY state, [num] and
    the angles are [uint8_t] values. *)
Definition well_formed (s : Player) : bool :=
  ((step s =? 0) && (delay_count s =? 0)
   || (step s =? 1) && (0 <=? delay_count s) && (delay_count s <=? 2))
  && is_uint8 (num s)
  && forallb is_uint8 (vec_to_list (extended_func_angles s)).


(** The first 256 frames of a row are all there and live. *)
Definition all_frames_live (row : list (list Z)) : bool :=
  (256 <=? length row)%nat && forallb live_frame (take 256 row).

End WithTable.

Arguments live_frame f : simpl nomatch.
Arguments sentinel_frame f : simpl nomatch.

End TableDriven.

(** ** Single-shot player ([examples/uhand_actions_simple]) *)

Module Simple.
Section WithTable.

(** Here [action] is two-dimensional: one pose of 7 columns per
    action. *)
Variable action : list (list Z).
Variable action_count : Z.

Definition table_get (r c : Z) : option Z :=
  match index action r with
  | Some row => index row c
  | None => None
  end.

Definition read_action (r c : Z) : M Z := fun s =>
  ([TableRead [r; c]],
   match table_get r c with
   | Some v => Some (v, s)
   | None => None
   end).

(** [action_task]: the statics are declared but never used, there is
    no gate and no [switch]. *)
Definition action_task : M unit :=
  (fun s =>
   if in_play action_count s then
     (an <- get action_num ;;
      v1 <- read_action (an - 1) 1 ;; set_angle 0%fin v1 ;;
      v2 <- read_action (an - 1) 2 ;; set_angle 1%fin v2 ;;
      v3 <- read_action (an - 1) 3 ;; set_angle 2%fin v3 ;;
      v4 <- read_action (an - 1) 4 ;; set_angle 3%fin v4 ;;
      v5 <- read_action (an - 1) 5 ;; set_angle 4%fin v5 ;;
      v6 <- read_action (an - 1) 6 ;; set_angle 5%fin v6 ;;
      modify (with_action_num 0))%player s
   else ret tt s).

(** A pose that can be played: its seven columns are there and the
    six joint values are [uint8_t] values. *)
Definition pose_ok (row : list Z) : bool :=
  match row with
  | _ :: v1 :: v2 :: v3 :: v4 :: v5 :: v6 :: _ =>
      forallb is_uint8 [v1; v2; v3; v4; v5; v6]
  | _ => false
  end.

End WithTable.

Arguments pose_ok row : simpl nomatch.

End Simple.

(** ** The ESP32-Cam link ([hw_esp32cam_ctl.cpp], both sketches) *)

Module Esp32Cam.

(** [#define ESP32CAM_ADDR 0x52] *)
Definition ESP32CAM_ADDR : byte := x52.

(** What went over the two-wire bus. *)
Inductive bus_op : Type :=
| Transmit (addr : byte) (data : list byte) (status : Z)
| Request (addr : byte) (quantity : Z) (received : list byte).

(** The register addresses sent in a log, oldest first. *)
Definition registers_addressed (ops : list bus_op) : list byte :=
  flat_map (fun op => match op with
                      | Transmit _ data _ => data
                      | Request _ _ _ => []
                      end) ops.

(** A cell of a [uint8_t] buffer; [None] is a cell never assigned. *)
Definition cell : Type := option byte.

(** [uint8_t buf[4];] without initialiser. *)
Definition uninit4 : list cell := replicate 4 None.

(** [buf[2] > 0]; reading a cell outside the buffer or never assigned
    has no defined value. *)
Definition width_positive (buf : list cell) : option bool :=
  match buf !! 2%nat with
  | Some (Some w) => Some (0 <? Z.of_N (Byte.to_N w))
  | _ => None
  end.

Section WithDevice.

(** The peripheral on the other end of the bus, seen through the
    Arduino [Wire] library: how it answers a write transaction
    ([endTransmission] status, 0 is success) and which bytes a
    [requestFrom] leaves in the receive buffer. *)
Variable Device : Type.
Variable dev_transmit : Device -> byte -> list byte -> Z * Device.
Variable dev_request : Device -> byte -> Z -> list byte * Device.

Record Wire : Type := mkWire {
  tx_addr : byte;          (* address given to beginTransmission *)
  tx_buf : list byte;      (* bytes queued by write *)
  rx_buf : list byte;      (* bytes received and not yet read *)
  dev : Device;
  log : list bus_op        (* transactions so far, oldest first *)
}.

Definition beginTransmission (addr : byte) (w : Wire) : Wire :=
  mkWire addr [] (rx_buf w) (dev w) (log w).

Definition write (b : byte) (w : Wire) : Wire :=
  mkWire (tx_addr w) (tx_buf w ++ [b]) (rx_buf w) (dev w) (log w).

Definition endTransmission (w : Wire) : Z * Wire :=
  match dev_transmit (dev w) (tx_addr w) (tx_buf w) with
  | (status, d) =>
      (status,
       mkWire (tx_addr w) [] (rx_buf w) d
              (log w ++ [Transmit (tx_addr w) (tx_buf w) status]))
  end.

Definition requestFrom (addr : byte) (quantity : Z) (w : Wire) : Wire :=
  match dev_request (dev w) addr quantity with
  | (bytes, d) =>
      mkWire (tx_addr w) (tx_buf w) bytes d
             (log w ++ [Request addr quantity bytes])
  end.

Definition with_rx_buf (rx : list byte) (w : Wire) : Wire :=
  mkWire (tx_addr w) (tx_buf w) rx (dev w) (log w).

(** Computations on the bus; [None] is undefined behaviour (a store
    outside the buffer, a read of a cell never assigned). *)
Definition B (A : Type) : Type := Wire -> option (A * Wire).

Definition bret {A : Type} (a : A) : B A := fun w => Some (a, w).
Definition bbind {A C : Type} (m : B A) (k : A -> B C) : B C := fun w =>
  match m w with
  | Some (a, w') => k a w'
  | None => None
  end.
Definition undefined {A : Type} : B A := fun _ => None.

(** The [for] loop of [wireWriteDataArray]: [Wire.write(val[i])] for
    [n] successive subscripts from [i] on. *)
Fixpoint write_loop (n : nat) (i : Z) (val : list cell) : B unit :=
  match n with
  | O => bret tt
  | S n' => fun w =>
      match index val i with
      | Some (Some b) => write_loop n' (i + 1) val (write b w)
      | _ => None
      end
  end.

(** [wireWriteDataArray]; [len] is an [unsigned int]. *)
Definition wireWriteDataArray (addr reg : byte) (val : list cell) (len : Z)
  : B bool := fun w =>
  match write_loop (Z.to_nat len) 0 val
                   (write reg (beginTransmission addr w)) with
  | Some (_, w') =>
      match endTransmission w' with
      | (status, w'') => Some (if negb (status =? 0) then false else true, w'')
      end
  | None => None
  end.

(** [WireWriteByte] *)
Definition WireWriteByte (val : byte) : B bool := fun w =>
  match endTransmission (write val (beginTransmission ESP32CAM_ADDR w)) with
  | (status, w') => Some (if negb (status =? 0) then false else true, w')
  end.

(** The loop of [WireReadDataArray] over the receive buffer [rx]:
    [Wire.available()] is true while [rx] is not empty and
    [Wire.read()] takes its first byte. The result is the return
    value, the buffer [val] and what is left of [rx]. *)
Fixpoint read_loop (rx : list byte) (i : Z) (val : list cell) (len : Z)
  : option (Z * list cell * list byte) :=
  match rx with
  | [] => Some (i, val, [])
  | b :: rx' =>
      if len <=? i then Some (-1, val, rx)
      else if (i <? Z.of_nat (length val)) then
        read_loop rx' (to_uint8 (i + 1)) (<[Z.to_nat i := Some b]> val) len
      else None
  end.

(** [WireReadDataArray]: the return value and the buffer [val]. *)
Definition WireReadDataArray (reg : byte) (val : list cell) (len : Z)
  : B (Z * list cell) :=
  bbind (WireWriteByte reg) (fun ok =>
  if negb ok then bret (-1, val)
  else fun w =>
    let w1 := requestFrom ESP32CAM_ADDR len w in
    match read_loop (rx_buf w1) 0 val len with
    | Some (n, val', rx') => Some ((n, val'), with_rx_buf rx' w1)
    | None => None
    end).

(** [(num == 4) && (buf[2] > 0)], the second operand evaluated only
    when the first holds. *)
Definition complete_and_wide (r : Z * list cell) : B bool :=
  if fst r =? 4 then
    match width_positive (snd r) with
    | Some p => bret p
    | None => undefined
    end
  else bret false.

(** [faceDetect]; the [Serial] prints are left out. *)
Definition faceDetect : B bool :=
  bbind (WireReadDataArray x01 uninit4 4) (fun r =>
  bbind (complete_and_wide r) (fun hit =>
  if hit then bret true else bret false)).

(** [colorDetect]: each row of [color_info[3][4]] is a buffer of its
    own. *)
Definition colorDetect : B Z :=
  bbind (WireReadDataArray x00 uninit4 4) (fun r0 =>
  bbind (complete_and_wide r0) (fun hit0 =>
  if hit0 then bret 1 else
  bbind (WireReadDataArray x01 uninit4 4) (fun r1 =>
  bbind (complete_and_wide r1) (fun hit1 =>
  if hit1 then bret 2 else
  bbind (WireReadDataArray x02 uninit4 4) (fun r2 =>
  bbind (complete_and_wide r2) (fun hit2 =>
  if hit2 then bret 3 else bret 0)))))).

(** [color_position]: the two sketches differ only in the register
    they read, [reg]. The result is the return value and the caller's
    buffer. *)
Definition color_position (reg : byte) (color_info : list cell)
  : B (bool * list cell) :=
  bbind (WireReadDataArray reg color_info 4) (fun r =>
  bbind (complete_and_wide r) (fun hit =>
  if hit then bret (true, snd r) else bret (false, snd r))).

(** [uhand_colors_clamp_esp32cam] *)
Definition color_position_clamp : list cell -> B (bool * list cell) :=
  color_position x01.
(** [uhand_colors_trace_esp32cam] *)
Definition color_position_trace : list cell -> B (bool * list cell) :=
  color_position x02.

(** *** The same, seen from the device

    One register read as the device sees it: the bytes it sent, if
    the address write was acknowledged, its next state and the bus
    operations. *)
Definition transaction (reg : byte) (d : Device)
  : option (list byte) * Device * list bus_op :=
  match dev_transmit d ESP32CAM_ADDR [reg] with
  | (status, d1) =>
      if status =? 0 then
        match dev_request d1 ESP32CAM_ADDR 4 with
        | (bytes, d2) =>
            (Some bytes, d2,
             [Transmit ESP32CAM_ADDR [reg] status;
              Request ESP32CAM_ADDR 4 bytes])
        end
      else (None, d1, [Transmit ESP32CAM_ADDR [reg] status])
  end.

(** The device answered with exactly four bytes [x, y, w, h] and
    [w] is not zero. *)
Definition box_detected (answer : option (list byte)) : bool :=
  match answer with
  | Some [_; _; w; _] => 0 <? Z.of_N (Byte.to_N w)
  | _ => false
  end.

(** What a four-byte read returns for the bytes [rx] received, and
    what it leaves in the four cells [val]. *)
Definition read_count (rx : list byte) : Z :=
  if (length rx <=? 4)%nat then Z.of_nat (length rx) else -1.
Definition store_bytes (rx : list byte) (val : list cell) : list cell :=
  (Some <$> take 4 rx) ++ drop (length rx) val.

(** The result of [WireReadDataArray] for a device answer. *)
Definition read_result (answer : option (list byte)) (val : list cell)
  : Z * list cell :=
  match answer with
  | Some bytes => (read_count bytes, store_bytes bytes val)
  | None => (-1, val)
  end.

(** The bus after a transaction. *)
Definition after (w : Wire) (t : option (list byte) * Device * list bus_op)
  : Wire :=
  match t with
  | (answer, d, ops) =>
      mkWire ESP32CAM_ADDR []
             (match answer with Some bytes => drop 4 bytes | None => rx_buf w end)
             d (log w ++ ops)
  end.

End WithDevice.

Arguments mkWire {Device}.
Arguments tx_addr {Device}.
Arguments tx_buf {Device}.
Arguments rx_buf {Device}.
Arguments dev {Device}.
Arguments log {Device}.

(** A simulated camera: it keeps the register last addressed and
    answers a request with the bytes stored for it. *)
Record Cam : Type := mkCam {
  pointer : byte;
  registers : list (byte * list byte);
  nack : bool                 (* the camera does not acknowledge *)
}.

Definition cam_transmit (c : Cam) (addr : byte) (data : list byte) : Z * Cam :=
  if nack c then (2, c)
  else match data with
       | reg :: _ => (0, mkCam reg (registers c) (nack c))
       | [] => (0, c)
       end.

Definition cam_lookup (regs : list (byte * list byte)) (reg : byte) : list byte :=
  match List.find (fun e => Byte.eqb (fst e) reg) regs with
  | Some e => snd e
  | None => []
  end.

Definition cam_request (c : Cam) (addr : byte) (quantity : Z) : list byte * Cam :=
  (cam_lookup (registers c) (pointer c), c).

Definition cam_wire (c : Cam) : Wire Cam := mkWire x00 [] [] c [].

End Esp32Cam.

(** ** Concrete tables, clocks and cameras used in the examples *)

Module Demo.
Import Esp32Cam.

(** The scenario of the specification: one frame, then the sentinel. *)
Definition one_frame : list (list (list Z)) :=
  [ [ [1; 10; 20; 30; 40; 50; 60]; [0; 0; 0; 0; 0; 0; 0] ] ].

(** Two actions of two frames each. *)
Definition two_actions : list (list (list Z)) :=
  [ [ [1; 10; 20; 30; 40; 50; 60]; [1; 11; 21; 31; 41; 51; 61];
      [0; 0; 0; 0; 0; 0; 0] ];
    [ [1; 70; 80; 90; 100; 110; 120]; [1; 71; 81; 91; 101; 111; 121];
      [0; 0; 0; 0; 0; 0; 0] ] ].

(** The single-shot table: one pose per action. *)
Definition poses : list (list Z) :=
  [ [1; 10; 20; 30; 40; 50; 60]; [1; 70; 80; 90; 100; 110; 120] ].

(** [millis()] readings 100 ms apart, starting at [t]. *)
Fixpoint every_100ms (t : Z) (n : nat) : list (Z * Z) :=
  match n with
  | O => []
  | S n' => (t, t) :: every_100ms (t + 100) n'
  end.

(** The table-driven player in the middle of action 1 of
    [two_actions]: frame 0 was applied by the first call. *)
Definition mid_action : Player :=
  mkPlayer 1 [# 10; 20; 30; 40; 50; 60] 100 1 0 0.

(** A player waiting at the sentinel of [one_frame]. *)
Definition at_sentinel : Player :=
  mkPlayer 1 [# 10; 20; 30; 40; 50; 60] 400 0 1 0.

(** A camera that sees red and blue, green with zero width. *)
Definition cam_red_blue : Cam :=
  mkCam x00 [ (x00, [x0a; x14; x1e; x28]);
              (x01, [x00; x00; x00; x00]);
              (x02, [x05; x06; x07; x08]) ] false.

(** A camera whose register 0x01 answers with two bytes only. *)
Definition cam_short : Cam :=
  mkCam x00 [ (x01, [x07; x09]) ] false.

(** A camera that does not acknowledge. *)
Definition cam_absent : Cam :=
  mkCam x00 [ (x01, [x0a; x14; x1e; x28]) ] true.


(** A table whose only row holds 256 live frames and no sentinel
    within reach of the frame index. *)
Definition endless : list (list (list Z)) :=
  [ replicate 256 [1; 10; 20; 30; 40; 50; 60] ].

(** Three actions; the third has three frames. *)
Definition three_actions : list (list (list Z)) :=
  two_actions ++
  [ [ [1; 1; 2; 3; 4; 5; 6]; [1; 7; 8; 9; 10; 11; 12];
      [1; 13; 14; 15; 16; 17; 18]; [0; 0; 0; 0; 0; 0; 0] ] ].

(** A caller's buffer holding zeros. *)
Definition zeros4 : list cell := replicate 4 (Some x00).

End Demo.

(** * Properties *)

Lemma to_uint8_id v : is_uint8 v = true -> to_uint8 v = v.
Proof.
  unfold is_uint8, to_uint8. intros H.
  apply andb_true_iff in H as [H1 H2].
  apply Z.mod_small. lia.
Qed.

(** ** Table-driven player *)

Module TableDrivenFacts.
Import TableDriven.

Section WithTable.

Variable action : list (list (list Z)).
Variable action_count : Z.

Abbreviation action_task := (action_task action action_count).
Abbreviation table_get := (table_get action).
Abbreviation run := (run action action_count).

Ltac unfold_task :=
  unfold TableDriven.action_task, bind, get, modify, ret,
         read_action, set_angle.

(** Outside the guard the call does nothing at all. *)
Lemma action_task_idle now now' s :
  in_play action_count s = false ->
  action_task now now' s = ([], Some (tt, s)).
Proof. intros H. unfold_task. now rewrite H. Qed.

Lemma action_task_gated now now' s :
  gate_closed now s = true ->
  action_task now now' s = ([], Some (tt, s)).
Proof.
  intros H. unfold_task. rewrite H. now destruct (in_play action_count s).
Qed.

Lemma action_task_wait now now' s :
  in_play action_count s = true ->
  gate_closed now s = false ->
  step s = 1 ->
  action_task now now' s = ([], Some (tt, waited now' s)).
Proof.
  intros Hp Hg Hs. unfold_task. rewrite Hp, Hg. cbn. rewrite Hs. cbn.
  unfold waited. now destruct (2 <? to_uint8 (delay_count s + 1)).
Qed.

(** APPLY on the sentinel. *)
Lemma action_task_sentinel now now' s :
  in_play action_count s = true ->
  gate_closed now s = false ->
  step s = 0 ->
  table_get (action_num s - 1) (num s) 0 = Some 0 ->
  action_task now now' s =
    ([TableRead [action_num s - 1; num s; 0]],
     Some (tt, with_action_num 0 (with_num 0 (with_last_tick now' s)))).
Proof.
  intros Hp Hg Hs Ht. unfold_task. rewrite Hp, Hg. cbn. rewrite Hs. cbn.
  now rewrite Ht.
Qed.

(** APPLY on a subscript outside the table. *)
Lemma action_task_out_of_bounds now now' s :
  in_play action_count s = true ->
  gate_closed now s = false ->
  step s = 0 ->
  table_get (action_num s - 1) (num s) 0 = None ->
  action_task now now' s =
    ([TableRead [action_num s - 1; num s; 0]], None).
Proof.
  intros Hp Hg Hs Ht. unfold_task. rewrite Hp, Hg. cbn. rewrite Hs. cbn.
  now rewrite Ht.
Qed.

Lemma action_task_apply now now' s c0 v1 v2 v3 v4 v5 v6 :
  in_play action_count s = true ->
  gate_closed now s = false ->
  step s = 0 ->
  table_get (action_num s - 1) (num s) 0 = Some c0 ->
  c0 <> 0 ->
  table_get (action_num s - 1) (num s) 1 = Some v1 ->
  table_get (action_num s - 1) (num s) 2 = Some v2 ->
  table_get (action_num s - 1) (num s) 3 = Some v3 ->
  table_get (action_num s - 1) (num s) 4 = Some v4 ->
  table_get (action_num s - 1) (num s) 5 = Some v5 ->
  table_get (action_num s - 1) (num s) 6 = Some v6 ->
  action_task now now' s =
    (apply_events (action_num s - 1) (num s) v1 v2 v3 v4 v5 v6,
     Some (tt, with_step 1
                 (with_angles [# to_uint8 v1; to_uint8 v2; to_uint8 v3;
                                 to_uint8 v4; to_uint8 v5; to_uint8 v6]
                    (with_last_tick now' s)))).
Proof.
  intros Hp Hg Hs H0 Hc H1 H2 H3 H4 H5 H6.
  unfold_task. rewrite Hp, Hg. cbn. rewrite Hs. cbn.
  rewrite H0. cbn.
  apply Z.eqb_neq in Hc. rewrite Hc. cbn.
  rewrite H1, H2, H3, H4, H5, H6. cbn.
  unfold apply_events. do 3 f_equal.
  unfold with_step, with_angles, with_last_tick. cbn.
  f_equal.
  generalize (extended_func_angles s). intros a.
  inv_vec a. intros. reflexivity.
Qed.

Lemma run_cons now now' clk s tr s' :
  action_task now now' s = (tr, Some (tt, s')) ->
  run ((now, now') :: clk) s = (tr ++ fst (run clk s'), snd (run clk s')).
Proof.
  intros H. cbn [TableDriven.run]. unfold bind. rewrite H.
  now destruct (TableDriven.run action action_count clk s').
Qed.

Lemma index_middle {A : Type} (pre : list A) (x : A) (tl : list A) :
  index (pre ++ x :: tl) (Z.of_nat (length pre)) = Some x.
Proof.
  unfold index.
  destruct (Z.ltb_spec (Z.of_nat (length pre)) 0) as [H|H]; [lia|].
  rewrite Nat2Z.id. apply list_lookup_middle. reflexivity.
Qed.

Lemma table_get_frame r row pre f tl c :
  index action r = Some row ->
  row = pre ++ f :: tl ->
  table_get r (Z.of_nat (length pre)) c = index f c.
Proof.
  intros Hr ->. unfold TableDriven.table_get. rewrite Hr.
  now rewrite index_middle.
Qed.

(** One frame takes four calls: APPLY and three WAIT. *)
Lemma play_frame s row pre c0 v1 v2 v3 v4 v5 v6 more tl c1 c2 c3 c4 clk :
  in_play action_count s = true ->
  index action (action_num s - 1) = Some row ->
  row = pre ++ (c0 :: v1 :: v2 :: v3 :: v4 :: v5 :: v6 :: more) :: tl ->
  c0 <> 0 ->
  num s = Z.of_nat (length pre) ->
  step s = 0 ->
  delay_count s = 0 ->
  gates_open (last_tick s) [c1; c2; c3; c4] = true ->
  let s4 := mkPlayer (action_num s)
              [# to_uint8 v1; to_uint8 v2; to_uint8 v3;
                 to_uint8 v4; to_uint8 v5; to_uint8 v6]
              (snd c4) 0 (to_uint8 (num s + 1)) 0 in
  run (c1 :: c2 :: c3 :: c4 :: clk) s =
    (apply_events (action_num s - 1) (num s) v1 v2 v3 v4 v5 v6
       ++ fst (run clk s4),
     snd (run clk s4)).
Proof.
  intros Hp Hrow Hdec Hc Hn Hs Hd Hg s4.
  destruct c1 as [a1 b1], c2 as [a2 b2], c3 as [a3 b3], c4 as [a4 b4].
  cbn in Hg.
  repeat (apply andb_true_iff in Hg as [?G Hg]).
  repeat match goal with
         | H : negb _ = true |- _ => apply negb_true_iff in H
         end.
  pose proof (fun c => table_get_frame _ _ _ _ _ c Hrow Hdec) as Hget.
  rewrite <- Hn in Hget.
  erewrite run_cons; cycle 1.
  { apply action_task_apply with (c0 := c0); try rewrite Hget; trivial. }
  destruct s as [an ang lt st n dc]. cbn in Hs, Hd, Hn. subst st dc.
  erewrite run_cons; cycle 1.
  { apply action_task_wait; trivial. }
  erewrite run_cons; cycle 1.
  { apply action_task_wait; trivial. }
  erewrite run_cons; cycle 1.
  { apply action_task_wait; trivial. }
  subst s4. rewrite !app_nil_l. cbn [fst snd]. reflexivity.
Qed.

Lemma writes_app tr1 tr2 : writes (tr1 ++ tr2) = writes tr1 ++ writes tr2.
Proof. unfold writes. apply List.filter_app. Qed.

(** Playing the frames that follow [pre] up to the sentinel. *)
Lemma play_frames frames :
  forall pre s clk row stop rest,
    in_play action_count s = true ->
    index action (action_num s - 1) = Some row ->
    row = pre ++ frames ++ stop :: rest ->
    forallb live_frame frames = true ->
    sentinel_frame stop = true ->
    (length pre + length frames <= 255)%nat ->
    num s = Z.of_nat (length pre) ->
    step s = 0 ->
    delay_count s = 0 ->
    length clk = (4 * length frames + 1)%nat ->
    gates_open (last_tick s) clk = true ->
    exists tr s',
      run clk s = (tr, Some (tt, s')) /\
      action_num s' = 0 /\ num s' = 0 /\ step s' = 0 /\ delay_count s' = 0 /\
      writes tr = flat_map copy_of frames /\
      vec_to_list (extended_func_angles s') =
        angles_after frames (vec_to_list (extended_func_angles s)).
Proof.
  induction frames as [|f fs IH];
    intros pre s clk row stop rest Hp Hrow Hdec Hlive Hstop Hlen Hn Hs Hd Hclk Hg.
  - destruct clk as [|[a b] [|? ?]]; try discriminate.
    cbn in Hg. rewrite andb_true_r in Hg. apply negb_true_iff in Hg.
    destruct stop as [|c0 stop']; [discriminate|].
    cbn in Hstop. apply Z.eqb_eq in Hstop. subst c0.
    cbn [app] in Hdec.
    pose proof (table_get_frame _ _ _ _ _ 0 Hrow Hdec) as Hget.
    rewrite <- Hn in Hget. cbn in Hget.
    erewrite run_cons; cycle 1.
    { apply action_task_sentinel; trivial. }
    cbn. eexists _, _. split; [reflexivity|]. cbn. tauto.
  - cbn [length] in Hclk, Hlen.
    destruct clk as [|c1 [|c2 [|c3 [|c4 clk]]]]; cbn [length] in Hclk; try lia.
    cbn [forallb] in Hlive. apply andb_true_iff in Hlive as [Hf Hlive].
    destruct f as [|c0 [|v1 [|v2 [|v3 [|v4 [|v5 [|v6 more]]]]]]];
      try discriminate.
    cbn in Hf.
    repeat (apply andb_true_iff in Hf as [?U Hf]).
    apply negb_true_iff, Z.eqb_neq in U.
    assert (Hg4 : gates_open (last_tick s) [c1; c2; c3; c4] = true
                  /\ gates_open (snd c4) clk = true).
    { destruct c1, c2, c3, c4. cbn in Hg |- *.
      repeat (apply andb_true_iff in Hg as [?G Hg]).
      rewrite G, G0, G1, G2, Hg. split; reflexivity. }
    destruct Hg4 as [Hg4 Hg'].
    cbn [app] in Hdec.
    rewrite (play_frame s row pre c0 v1 v2 v3 v4 v5 v6 more
               (fs ++ stop :: rest) c1 c2 c3 c4 clk); trivial.
    unfold apply_events. rewrite !to_uint8_id by assumption.
    set (s4 := mkPlayer _ _ _ _ _ _).
    destruct (IH (pre ++ [(c0 :: v1 :: v2 :: v3 :: v4 :: v5 :: v6 :: more)])
                 s4 clk row stop rest)
      as (tr & s' & Hrun & Ha & Hn' & Hs' & Hd' & Hw & Hang); trivial.
    + rewrite <- app_assoc. exact Hdec.
    + rewrite length_app. cbn [length]. lia.
    + subst s4. cbn [num]. rewrite length_app. cbn [length].
      rewrite Hn. unfold to_uint8. rewrite Z.mod_small; lia.
    + lia.
    + rewrite Hrun. cbn [fst snd]. eexists _, s'.
      split; [reflexivity|].
      repeat split; trivial.
      rewrite writes_app, Hw. reflexivity.
Qed.

(** C1, as amended. For every [actionIndex] in [1..action_count]
    whose row holds live frames followed by a sentinel at an index
    of at most 255, starting from a player at rest (frame index 0,
    APPLY state, counter 0, as after power-on or after a completed
    action): [action_set] followed by [4 * frames + 1] calls of
    [action_task] that all find the gate open ends with
    [action_state_get() = 0], and the stores into
    [extended_func_angles] are exactly the copies of columns 1..6 of
    the frames before the sentinel, in increasing frame order. *)
Theorem play_from_rest_completes
    (idx : Z) (frames : list (list Z)) (stop : list Z)
    (rest : list (list Z)) (s : Player) (clk : list (Z * Z)) :
  1 <= idx <= action_count ->
  index action (idx - 1) = Some (frames ++ stop :: rest) ->
  forallb live_frame frames = true ->
  sentinel_frame stop = true ->
  (length frames <= 255)%nat ->
  num s = 0 -> step s = 0 -> delay_count s = 0 ->
  length clk = (4 * length frames + 1)%nat ->
  gates_open (last_tick s) clk = true ->
  exists tr s',
    run clk (action_set idx s) = (tr, Some (tt, s')) /\
    action_state_get s' = 0 /\
    writes tr = flat_map copy_of frames /\
    vec_to_list (extended_func_angles s') =
      angles_after frames (vec_to_list (extended_func_angles s)) /\
    num s' = 0 /\ step s' = 0 /\ delay_count s' = 0.
Proof.
  intros Hidx Hrow Hlive Hstop Hlen Hn Hs Hd Hclk Hg.
  destruct (play_frames frames [] (action_set idx s) clk
              (frames ++ stop :: rest) stop rest)
    as (tr & s' & Hrun & Ha & Hn' & Hs' & Hd' & Hw & Hang); trivial.
  - unfold in_play, action_set. cbn.
    apply andb_true_iff. split.
    + apply negb_true_iff, Z.eqb_neq. lia.
    + apply Z.leb_le. lia.
  - exists tr, s'. unfold action_state_get. auto 10.
Qed.

(** C2. A call stores into [extended_func_angles] only if
    [action_num] was not 0 on entry; and the call that finds the
    sentinel ([action[action_num-1][num][0] == 0]) sets [num] and
    [action_num] to 0 without storing into [extended_func_angles]. *)
Theorem writes_only_in_play_and_sentinel_resets
    (now now' : Z) (s : Player) (tr : list event)
    (r : option (unit * Player)) :
  action_task now now' s = (tr, r) ->
  (writes tr <> [] -> action_num s <> 0) /\
  (in_play action_count s = true ->
   gate_closed now s = false ->
   step s = 0 ->
   table_get (action_num s - 1) (num s) 0 = Some 0 ->
   exists s',
     r = Some (tt, s') /\ num s' = 0 /\ action_num s' = 0 /\
     writes tr = [] /\
     extended_func_angles s' = extended_func_angles s).
Proof.
  intros Hrun. split.
  - intros Hw Hz. apply Hw.
    rewrite action_task_idle in Hrun.
    + now inversion Hrun.
    + unfold in_play. now rewrite Hz.
  - intros Hp Hg Hs Ht.
    rewrite action_task_sentinel in Hrun by assumption.
    inversion Hrun; subst. eexists. repeat split.
Qed.

(** C4. With an action in progress, a call made while
    [millis() - last_tick < 100] changes nothing: the player,
    [extended_func_angles] included, is the same afterwards and
    nothing is read or stored. *)
Theorem gated_call_is_noop (now now' : Z) (s : Player) :
  in_play action_count s = true ->
  gate_closed now s = true ->
  action_task now now' s = ([], Some (tt, s)).
Proof. intros _ Hg. now apply action_task_gated. Qed.

(** C5, as amended. In the WAIT state a call that passes the gate
    sets [last_tick] and increments [delay_count] (as [uint8_t]);
    when the counter then exceeds 2 it is reset to 0, [num] advances
    by 1 (as [uint8_t]) and [step] returns to 0; otherwise nothing
    besides [last_tick] and [delay_count] changes. *)
Theorem wait_state_call (now now' : Z) (s : Player) :
  in_play action_count s = true ->
  gate_closed now s = false ->
  step s = 1 ->
  action_task now now' s =
    ([], Some (tt,
       if 2 <? to_uint8 (delay_count s + 1) then
         mkPlayer (action_num s) (extended_func_angles s) now'
                  0 (to_uint8 (num s + 1)) 0
       else
         mkPlayer (action_num s) (extended_func_angles s) now'
                  (step s) (num s) (to_uint8 (delay_count s + 1)))).
Proof.
  intros Hp Hg Hs. rewrite action_task_wait by assumption.
  unfold waited. now destruct (2 <? to_uint8 (delay_count s + 1)).
Qed.

(** [action_set] stores whatever it is given. *)
Lemma action_set_records (n : Z) (s : Player) :
  action_state_get (action_set n s) = n.
Proof. reflexivity. Qed.

(** A request of 0 or above [action_count] is not played. *)
Lemma request_zero_or_above_count_ignored (now now' : Z) (s : Player) :
  action_num s = 0 \/ action_count < action_num s ->
  action_task now now' s = ([], Some (tt, s)).
Proof.
  intros H. apply action_task_idle. unfold in_play.
  destruct H as [-> | H]; [reflexivity|].
  apply andb_false_iff. right. apply Z.leb_gt. exact H.
Qed.

(** Once the request is cleared, further calls do nothing. *)
Lemma run_idle (clk : list (Z * Z)) (s : Player) :
  action_num s = 0 -> run clk s = ([], Some (tt, s)).
Proof.
  intros Hz. induction clk as [|[now now'] clk IH]; [reflexivity|].
  rewrite (run_cons now now' clk s [] s).
  - rewrite IH. reflexivity.
  - apply action_task_idle. unfold in_play. now rewrite Hz.
Qed.

End WithTable.

(** [num] is a [uint8_t]: after frame 255 the WAIT state goes back to
    frame 0. *)
Example frame_index_wraps :
  num (waited 0 (mkPlayer 1 [# 0; 0; 0; 0; 0; 0] 0 1 255 2)) = 0.
Proof. reflexivity. Qed.

(** The scenario of the specification, run. *)
Example scenario_one_frame :
  TableDriven.run Demo.one_frame 1 (Demo.every_100ms 100 5)
                  (action_set 1 power_on) =
    ([ TableRead [0; 0; 0];
       TableRead [0; 0; 1]; AngleWrite 0 10;
       TableRead [0; 0; 2]; AngleWrite 1 20;
       TableRead [0; 0; 3]; AngleWrite 2 30;
       TableRead [0; 0; 4]; AngleWrite 3 40;
       TableRead [0; 0; 5]; AngleWrite 4 50;
       TableRead [0; 0; 6]; AngleWrite 5 60;
       TableRead [0; 1; 0] ],
     Some (tt, mkPlayer 0 [# 10; 20; 30; 40; 50; 60] 500 0 0 0)).
Proof. reflexivity. Qed.

Lemma play_from_rest_completes_witness :
  exists tr s',
    TableDriven.run Demo.one_frame 1 (Demo.every_100ms 100 5)
                    (action_set 1 power_on) = (tr, Some (tt, s')) /\
    action_state_get s' = 0 /\
    writes tr = flat_map copy_of [[1; 10; 20; 30; 40; 50; 60]] /\
    vec_to_list (extended_func_angles s') = [10; 20; 30; 40; 50; 60] /\
    num s' = 0 /\ step s' = 0 /\ delay_count s' = 0.
Proof.
  apply (play_from_rest_completes Demo.one_frame 1 1
           [[1; 10; 20; 30; 40; 50; 60]] [0; 0; 0; 0; 0; 0; 0] []
           power_on (Demo.every_100ms 100 5));
    try reflexivity; cbn; lia.
Defined.

(** C1 as stated fails when [action_set] overwrites an action in
    progress: [Demo.mid_action] is the player one call into action 1;
    after [action_set(2)] the calls, all passing the gate, reach
    [action_state_get() = 0] at the eighth call and not before, and the
    only frame of action 2 ever copied is frame 1: frame 0 is
    skipped. *)
Lemma overwrite_mid_action_skips_frame :
  player_of (TableDriven.action_task Demo.two_actions 2 100 100
               (action_set 1 power_on)) = Some Demo.mid_action /\
  gates_open (last_tick (action_set 2 Demo.mid_action))
             (Demo.every_100ms 200 8) = true /\
  forallb (fun n =>
             match player_of (TableDriven.run Demo.two_actions 2
                                (Demo.every_100ms 200 n)
                                (action_set 2 Demo.mid_action)) with
             | Some s' => negb (action_state_get s' =? 0)
             | None => false
             end) (seq 0 8) = true /\
  exists tr s',
    TableDriven.run Demo.two_actions 2 (Demo.every_100ms 200 8)
                    (action_set 2 Demo.mid_action) = (tr, Some (tt, s')) /\
    action_state_get s' = 0 /\
    writes tr = copy_of [1; 71; 81; 91; 101; 111; 121] /\
    writes tr <> flat_map copy_of [ [1; 70; 80; 90; 100; 110; 120];
                                    [1; 71; 81; 91; 101; 111; 121] ].
Proof.
  split; [reflexivity|]. split; [reflexivity|]. split; [reflexivity|].
  eexists _, _. split; [reflexivity|]. split; [reflexivity|].
  split; [reflexivity|]. discriminate.
Qed.

Lemma writes_only_in_play_and_sentinel_resets_witness :
  exists s',
    snd (TableDriven.action_task Demo.one_frame 1 500 500 Demo.at_sentinel)
      = Some (tt, s') /\
    num s' = 0 /\ action_num s' = 0 /\
    writes (fst (TableDriven.action_task Demo.one_frame 1 500 500
                   Demo.at_sentinel)) = [] /\
    extended_func_angles s' = extended_func_angles Demo.at_sentinel.
Proof.
  exact (proj2 (writes_only_in_play_and_sentinel_resets
                  Demo.one_frame 1 500 500 Demo.at_sentinel _ _ eq_refl)
               eq_refl eq_refl eq_refl eq_refl).
Defined.

Lemma gated_call_is_noop_witness :
  TableDriven.action_task Demo.two_actions 2 150 150 Demo.mid_action =
    ([], Some (tt, Demo.mid_action)).
Proof.
  exact (gated_call_is_noop Demo.two_actions 2 150 150 Demo.mid_action
           eq_refl eq_refl).
Defined.

(** C5 as stated fails on [last_tick]: in the WAIT state with the
    counter at 0, a call that passes the gate leaves the counter at 1,
    which does not exceed 2, and yet has changed [last_tick] as well. *)
Lemma wait_refreshes_last_tick :
  step Demo.mid_action = 1 /\
  exists s',
    TableDriven.action_task Demo.two_actions 2 200 200 Demo.mid_action =
      ([], Some (tt, s')) /\
    delay_count s' = 1 /\
    last_tick Demo.mid_action = 100 /\ last_tick s' = 200 /\
    s' <> with_delay_count 1 Demo.mid_action.
Proof.
  split; [reflexivity|]. eexists. split; [reflexivity|].
  repeat split. discriminate.
Qed.

Lemma wait_state_call_witness :
  TableDriven.action_task Demo.two_actions 2 200 200 Demo.mid_action =
    ([], Some (tt, mkPlayer 1 [# 10; 20; 30; 40; 50; 60] 200 1 0 1)).
Proof.
  exact (wait_state_call Demo.two_actions 2 200 200 Demo.mid_action
           eq_refl eq_refl eq_refl).
Defined.

(** C9 at the request -1: [action_set] records it, the guard of
    [action_task] lets it through and the APPLY state evaluates
    [action[-2][0][0]], outside the table. *)
Theorem negative_request_is_played :
  action_state_get (action_set (-1) power_on) = -1 /\
  in_play 1 (action_set (-1) power_on) = true /\
  TableDriven.action_task Demo.one_frame 1 100 100 (action_set (-1) power_on) =
    ([TableRead [-2; 0; 0]], None).
Proof. repeat split. Qed.

End TableDrivenFacts.

(** ** The ESP32-Cam link *)

Module Esp32CamFacts.
Import Esp32Cam.

Section WithDevice.

Variable Device : Type.
Variable dev_transmit : Device -> byte -> list byte -> Z * Device.
Variable dev_request : Device -> byte -> Z -> list byte * Device.

Abbreviation Wire := (Esp32Cam.Wire Device).
Abbreviation WireReadDataArray :=
  (Esp32Cam.WireReadDataArray Device dev_transmit dev_request).
Abbreviation transaction :=
  (Esp32Cam.transaction Device dev_transmit dev_request).
Abbreviation faceDetect := (Esp32Cam.faceDetect Device dev_transmit dev_request).
Abbreviation colorDetect := (Esp32Cam.colorDetect Device dev_transmit dev_request).
Abbreviation color_position :=
  (Esp32Cam.color_position Device dev_transmit dev_request).

Lemma read_loop_4 rx val :
  length val = 4%nat ->
  read_loop rx 0 val 4 = Some (read_count rx, store_bytes rx val, drop 4 rx).
Proof.
  intros Hlen.
  destruct val as [|c0 [|c1 [|c2 [|c3 [|? ?]]]]]; try discriminate.
  destruct rx as [|b0 [|b1 [|b2 [|b3 [|b4 rx]]]]]; reflexivity.
Qed.

Lemma WireReadDataArray_4 reg val w :
  length val = 4%nat ->
  WireReadDataArray reg val 4 w =
    Some (read_result (fst (fst (transaction reg (dev w)))) val,
          after Device w (transaction reg (dev w))).
Proof.
  intros Hlen.
  unfold Esp32Cam.WireReadDataArray, bbind, WireWriteByte, endTransmission,
    write, beginTransmission, Esp32Cam.transaction. cbn.
  destruct (dev_transmit (dev w) ESP32CAM_ADDR [reg]) as [status d1].
  destruct (status =? 0); cbn; [|reflexivity].
  unfold requestFrom. cbn.
  destruct (dev_request d1 ESP32CAM_ADDR 4) as [bytes d2]. cbn.
  rewrite read_loop_4 by assumption.
  unfold with_rx_buf. cbn. rewrite <- app_assoc. reflexivity.
Qed.

Lemma complete_and_wide_result answer val :
  length val = 4%nat ->
  complete_and_wide Device (read_result answer val) =
    bret Device (box_detected answer).
Proof.
  intros Hlen.
  destruct val as [|c0 [|c1 [|c2 [|c3 [|? ?]]]]]; try discriminate.
  destruct answer as [bytes|]; [|reflexivity].
  destruct bytes as [|b0 [|b1 [|b2 [|b3 [|b4 rx]]]]]; reflexivity.
Qed.

Lemma transaction_registers reg d :
  registers_addressed (snd (transaction reg d)) = [reg].
Proof.
  unfold Esp32Cam.transaction.
  destruct (dev_transmit d ESP32CAM_ADDR [reg]) as [status d1].
  destruct (status =? 0); [|reflexivity].
  now destruct (dev_request d1 ESP32CAM_ADDR 4).
Qed.

Lemma after_dev w t : dev (after Device w t) = snd (fst t).
Proof. now destruct t as [[a d] ops]. Qed.

Lemma after_log w t : log (after Device w t) = log w ++ snd t.
Proof. now destruct t as [[a d] ops]. Qed.

(** The bus after the reads of registers 0x00, 0x01, 0x02 up to the
    first that detects a box, and the code of that register. *)
Lemma colorDetect_scan (w : Wire) :
  let t0 := transaction x00 (dev w) in
  let w0 := after Device w t0 in
  let t1 := transaction x01 (dev w0) in
  let w1 := after Device w0 t1 in
  let t2 := transaction x02 (dev w1) in
  let w2 := after Device w1 t2 in
  colorDetect w =
    Some (if box_detected (fst (fst t0)) then (1, w0)
          else if box_detected (fst (fst t1)) then (2, w1)
          else if box_detected (fst (fst t2)) then (3, w2)
          else (0, w2)).
Proof.
  intros t0 w0 t1 w1 t2 w2.
  unfold Esp32Cam.colorDetect, bbind.
  rewrite WireReadDataArray_4 by reflexivity.
  rewrite complete_and_wide_result by reflexivity. unfold bret at 1.
  fold t0 w0. destruct (box_detected (fst (fst t0))); [reflexivity|].
  rewrite WireReadDataArray_4 by reflexivity.
  rewrite complete_and_wide_result by reflexivity. unfold bret at 1.
  fold t1 w1. destruct (box_detected (fst (fst t1))); [reflexivity|].
  rewrite WireReadDataArray_4 by reflexivity.
  rewrite complete_and_wide_result by reflexivity. unfold bret at 1.
  fold t2 w2. destruct (box_detected (fst (fst t2))); reflexivity.
Qed.

(** C3. [colorDetect] reads the registers 0x00, 0x01, 0x02 in this
    order and stops at the first whose read is complete (four bytes)
    with a nonzero width byte: if that is register 0x00 the result is 1
    and the bus has seen this one transaction only, whatever the other
    channels hold; otherwise 2 on the same condition for register
    0x01, otherwise 3 for register 0x02, and 0 when no channel
    qualifies. For every device and every state of the bus. *)
Theorem colorDetect_priority (w : Wire) :
  let t0 := transaction x00 (dev w) in
  let w0 := after Device w t0 in
  let t1 := transaction x01 (dev w0) in
  let w1 := after Device w0 t1 in
  let t2 := transaction x02 (dev w1) in
  let w2 := after Device w1 t2 in
  colorDetect w =
    Some (if box_detected (fst (fst t0)) then (1, w0)
          else if box_detected (fst (fst t1)) then (2, w1)
          else if box_detected (fst (fst t2)) then (3, w2)
          else (0, w2)) /\
  registers_addressed (snd t0) = [x00] /\
  registers_addressed (snd t1) = [x01] /\
  registers_addressed (snd t2) = [x02] /\
  log w0 = log w ++ snd t0 /\
  log w1 = log w ++ snd t0 ++ snd t1 /\
  log w2 = log w ++ snd t0 ++ snd t1 ++ snd t2.
Proof.
  intros t0 w0 t1 w1 t2 w2.
  split; [apply colorDetect_scan|].
  repeat split; try apply transaction_registers.
  - apply after_log.
  - unfold w1. rewrite after_log. unfold w0. rewrite after_log.
    now rewrite <- app_assoc.
  - unfold w2. rewrite after_log. unfold w1. rewrite after_log.
    unfold w0. rewrite after_log. now rewrite <- !app_assoc.
Qed.

(** Red has priority over green and blue. *)
Lemma colorDetect_red_wins (w : Wire) :
  box_detected (fst (fst (transaction x00 (dev w)))) = true ->
  colorDetect w = Some (1, after Device w (transaction x00 (dev w))).
Proof. intros H. rewrite colorDetect_scan. cbv zeta. now rewrite H. Qed.

(** A channel whose width byte is zero is not detected.  *)
Lemma zero_width_not_detected (x y h : byte) :
  box_detected (Some [x; y; x00; h]) = false.
Proof. reflexivity. Qed.

(** C7. Round trip through [color_position]: when the write of the
    register address is acknowledged and the device sends exactly the
    four bytes [x, y, w, h] with [w > 0], the call returns [true] and
    the caller's four-cell buffer holds exactly these bytes. *)
Theorem color_position_round_trip
    (reg : byte) (w : Wire) (color_info : list cell)
    (x y wd h : byte) (d1 d2 : Device) :
  length color_info = 4%nat ->
  dev_transmit (dev w) ESP32CAM_ADDR [reg] = (0, d1) ->
  dev_request d1 ESP32CAM_ADDR 4 = ([x; y; wd; h], d2) ->
  0 < Z.of_N (Byte.to_N wd) ->
  exists w',
    color_position reg color_info w =
      Some ((true, [Some x; Some y; Some wd; Some h]), w') /\
    dev w' = d2.
Proof.
  intros Hlen Ht Hr Hw.
  unfold Esp32Cam.color_position, bbind.
  rewrite WireReadDataArray_4 by assumption.
  rewrite complete_and_wide_result by assumption.
  unfold Esp32Cam.transaction. rewrite Ht. cbn. rewrite Hr. cbn.
  apply Z.ltb_lt in Hw. rewrite Hw. cbn.
  destruct color_info as [|c0 [|c1 [|c2 [|c3 [|? ?]]]]]; try discriminate.
  eexists. split; reflexivity.
Qed.

(** C8, as amended. Whenever the read underlying [faceDetect] or
    [color_position] returns a count other than 4, the method returns
    [false]. The buffer given to [color_position] is left as it was
    only when the address write is not acknowledged; otherwise its
    leading cells hold the bytes received (all four cells when more
    than four bytes arrived) and only the cells after them are
    unchanged. *)
Theorem failed_read_reports_false (w : Wire) :
  (forall n face_info w',
      WireReadDataArray x01 uninit4 4 w = Some ((n, face_info), w') ->
      n <> 4 ->
      faceDetect w = Some (false, w')) /\
  (forall reg color_info n color_info' w',
      length color_info = 4%nat ->
      WireReadDataArray reg color_info 4 w = Some ((n, color_info'), w') ->
      n <> 4 ->
      color_position reg color_info w = Some ((false, color_info'), w') /\
      color_info' =
        match fst (fst (transaction reg (dev w))) with
        | Some bytes => store_bytes bytes color_info
        | None => color_info
        end).
Proof.
  split.
  - intros n face_info w' Hread Hn.
    unfold Esp32Cam.faceDetect, bbind. rewrite Hread.
    unfold complete_and_wide. cbn [fst snd].
    apply Z.eqb_neq in Hn. rewrite Hn. reflexivity.
  - intros reg color_info n color_info' w' Hlen Hread Hn.
    split.
    + unfold Esp32Cam.color_position, bbind. rewrite Hread.
      unfold complete_and_wide. cbn [fst snd].
      apply Z.eqb_neq in Hn. rewrite Hn. reflexivity.
    + rewrite WireReadDataArray_4 in Hread by assumption.
      injection Hread as Hres _.
      destruct (fst (fst (transaction reg (dev w)))); cbn in Hres;
        congruence.
Qed.

End WithDevice.

(** Red wins: with red and blue both in view the answer is 1 and only
    register 0x00 was read. *)
Example colorDetect_red_first :
  exists w',
    Esp32Cam.colorDetect Cam cam_transmit cam_request
                         (cam_wire Demo.cam_red_blue) = Some (1, w') /\
    log w' = [ Transmit x52 [x00] 0; Request x52 4 [x0a; x14; x1e; x28] ].
Proof. eexists. split; reflexivity. Qed.

(** No answer at all gives 0 after three attempts. *)
Example colorDetect_absent :
  exists w',
    Esp32Cam.colorDetect Cam cam_transmit cam_request
                         (cam_wire Demo.cam_absent) = Some (0, w') /\
    registers_addressed (log w') = [x00; x01; x02].
Proof. eexists. split; reflexivity. Qed.

Lemma color_position_round_trip_witness :
  exists w',
    color_position_trace Cam cam_transmit cam_request Demo.zeros4
                         (cam_wire Demo.cam_red_blue) =
      Some ((true, [Some x05; Some x06; Some x07; Some x08]), w') /\
    dev w' = mkCam x02 (registers Demo.cam_red_blue) false.
Proof.
  apply (color_position_round_trip Cam cam_transmit cam_request x02
           (cam_wire Demo.cam_red_blue) Demo.zeros4 x05 x06 x07 x08
           (mkCam x02 (registers Demo.cam_red_blue) false));
    reflexivity.
Defined.

(** C8 as stated fails on a short read: the camera sends two bytes,
    the read returns 2, [color_position] returns [false], and the first
    two cells of the caller's buffer have been overwritten. *)
Lemma short_read_overwrites_buffer :
  exists w',
    Esp32Cam.WireReadDataArray Cam cam_transmit cam_request x01 Demo.zeros4 4
                               (cam_wire Demo.cam_short) =
      Some ((2, [Some x07; Some x09; Some x00; Some x00]), w') /\
    color_position_clamp Cam cam_transmit cam_request Demo.zeros4
                         (cam_wire Demo.cam_short) =
      Some ((false, [Some x07; Some x09; Some x00; Some x00]), w') /\
    [Some x07; Some x09; Some x00; Some x00] <> Demo.zeros4.
Proof.
  eexists. split; [reflexivity|]. split; [reflexivity|]. discriminate.
Qed.

Lemma failed_read_reports_false_witness :
  (exists w',
     Esp32Cam.faceDetect Cam cam_transmit cam_request
                         (cam_wire Demo.cam_short) = Some (false, w')) /\
  (exists w',
     color_position_clamp Cam cam_transmit cam_request Demo.zeros4
                          (cam_wire Demo.cam_short) =
       Some ((false, [Some x07; Some x09; Some x00; Some x00]), w')) /\
  (exists w',
     color_position_clamp Cam cam_transmit cam_request Demo.zeros4
                          (cam_wire Demo.cam_absent) =
       Some ((false, Demo.zeros4), w')).
Proof.
  split; [|split].
  - eexists.
    apply (proj1 (failed_read_reports_false Cam cam_transmit cam_request
                    (cam_wire Demo.cam_short))
                 2 [Some x07; Some x09; None; None]);
      [reflexivity | discriminate].
  - eexists.
    apply (proj2 (failed_read_reports_false Cam cam_transmit cam_request
                    (cam_wire Demo.cam_short))
                 x01 Demo.zeros4 2);
      [reflexivity | reflexivity | discriminate].
  - eexists.
    apply (proj2 (failed_read_reports_false Cam cam_transmit cam_request
                    (cam_wire Demo.cam_absent))
                 x01 Demo.zeros4 (-1));
      [reflexivity | reflexivity | discriminate].
Defined.

End Esp32CamFacts.

(** ** Single-shot player *)

Module SimpleFacts.
Import Simple.

Section WithTable.

Variable action : list (list Z).
Variable action_count : Z.

Abbreviation action_task := (Simple.action_task action action_count).

(** C6. In the single-shot sketch, for every [action_num] in
    [1..action_count] one call of [action_task] copies the joint
    values of the whole selected row (its columns 1..6) into
    [extended_func_angles] and sets [action_num] to 0; there is no
    gate and no WAIT state, and the statics are left alone. *)
Theorem single_shot_copies_row (s : Player) (row : list Z) :
  1 <= action_num s <= action_count ->
  index action (action_num s - 1) = Some row ->
  pose_ok row = true ->
  exists tr s',
    action_task s = (tr, Some (tt, s')) /\
    vec_to_list (extended_func_angles s') = take 6 (drop 1 row) /\
    action_state_get s' = 0 /\
    writes tr = imap AngleWrite (take 6 (drop 1 row)) /\
    last_tick s' = last_tick s /\ step s' = step s /\
    num s' = num s /\ delay_count s' = delay_count s.
Proof.
  intros Hidx Hrow Hok.
  destruct row as [|c0 [|v1 [|v2 [|v3 [|v4 [|v5 [|v6 more]]]]]]];
    try discriminate.
  cbn in Hok. repeat (apply andb_true_iff in Hok as [?U Hok]).
  assert (Hget : forall c v,
             index (c0 :: v1 :: v2 :: v3 :: v4 :: v5 :: v6 :: more) c = Some v ->
             table_get action (action_num s - 1) c = Some v).
  { intros c v Hc. unfold table_get. now rewrite Hrow. }
  assert (Hp : in_play action_count s = true).
  { unfold in_play. apply andb_true_iff. split.
    - apply negb_true_iff, Z.eqb_neq. lia.
    - apply Z.leb_le. lia. }
  unfold Simple.action_task, bind, get, modify, ret, read_action, set_angle.
  rewrite Hp. cbn -[to_uint8 table_get].
  rewrite (Hget 1 v1), (Hget 2 v2), (Hget 3 v3), (Hget 4 v4),
    (Hget 5 v5), (Hget 6 v6) by reflexivity.
  cbn -[to_uint8].
  rewrite !to_uint8_id by assumption.
  eexists _, _. split; [reflexivity|]. cbn.
  generalize (extended_func_angles s). intros a. inv_vec a. intros.
  cbn. auto 10.
Qed.

End WithTable.

Lemma single_shot_copies_row_witness :
  exists tr s',
    Simple.action_task Demo.poses 2 (action_set 2 power_on) =
      (tr, Some (tt, s')) /\
    vec_to_list (extended_func_angles s') = [70; 80; 90; 100; 110; 120] /\
    action_state_get s' = 0 /\
    writes tr = imap AngleWrite [70; 80; 90; 100; 110; 120] /\
    last_tick s' = 0 /\ step s' = 0 /\ num s' = 0 /\ delay_count s' = 0.
Proof.
  apply (single_shot_copies_row Demo.poses 2 (action_set 2 power_on)
           [1; 70; 80; 90; 100; 110; 120]);
    try reflexivity; cbn; lia.
Defined.

End SimpleFacts.

(** ** The play-time guard and negative requests *)

Module GuardFacts.

Lemma index_negative {A : Type} (l : list A) (i : Z) :
  i < 0 -> index l i = None.
Proof.
  intros H. unfold index. apply Z.ltb_lt in H. now rewrite H.
Qed.

(** C10. The guard tests only [action_num != 0] and
    [action_num <= action_count]: every negative request passes it,
    and the call goes on to evaluate the table at the negative row
    [action_num - 1], in the APPLY state of the table-driven sketch
    ([action[action_num-1][num][0]]) and in the single-shot sketch
    ([action[action_num-1][1]]); nothing checks the subscript. *)
Theorem negative_request_reaches_table
    (frames_table : list (list (list Z))) (pose_table : list (list Z))
    (action_count : Z) (s : Player) (now now' : Z) :
  action_num s < 0 ->
  0 <= action_count ->
  TableDriven.gate_closed now s = false ->
  step s = 0 ->
  in_play action_count s = true /\
  action_num s - 1 < 0 /\
  TableDriven.action_task frames_table action_count now now' s =
    ([TableRead [action_num s - 1; num s; 0]], None) /\
  Simple.action_task pose_table action_count s =
    ([TableRead [action_num s - 1; 1]], None).
Proof.
  intros Hneg Hcount Hg Hs.
  assert (Hp : in_play action_count s = true).
  { unfold in_play. apply andb_true_iff. split.
    - apply negb_true_iff, Z.eqb_neq. lia.
    - apply Z.leb_le. lia. }
  split; [exact Hp|]. split; [lia|]. split.
  - apply TableDrivenFacts.action_task_out_of_bounds; trivial.
    unfold TableDriven.table_get. rewrite index_negative by lia. reflexivity.
  - unfold Simple.action_task, bind, get, Simple.read_action, Simple.table_get.
    rewrite Hp. cbn. rewrite index_negative by lia. reflexivity.
Qed.

Lemma negative_request_reaches_table_witness :
  in_play 1 (action_set (-1) power_on) = true /\
  -1 - 1 < 0 /\
  TableDriven.action_task Demo.one_frame 1 100 100 (action_set (-1) power_on) =
    ([TableRead [-1 - 1; 0; 0]], None) /\
  Simple.action_task Demo.poses 1 (action_set (-1) power_on) =
    ([TableRead [-1 - 1; 1]], None).
Proof.
  apply (negative_request_reaches_table Demo.one_frame Demo.poses 1
           (action_set (-1) power_on) 100 100);
    try reflexivity; cbn; lia.
Defined.

End GuardFacts.

(** ** More on the table-driven player *)

Module PlayerFacts.
Import TableDriven TableDrivenFacts.

Section WithTable.

Variable action : list (list (list Z)).
Variable action_count : Z.

Abbreviation action_task := (TableDriven.action_task action action_count).
Abbreviation table_get := (TableDriven.table_get action).
Abbreviation run := (TableDriven.run action action_count).
Abbreviation exec := (TableDriven.exec action action_count).

(** The four ways a call can end well. *)
Lemma action_task_some now now' s tr s' :
  action_task now now' s = (tr, Some (tt, s')) ->
  (tr = [] /\ s' = s /\
   (in_play action_count s = false \/ gate_closed now s = true))
  \/
  (in_play action_count s = true /\ gate_closed now s = false /\
   ((step s = 0 /\
     table_get (action_num s - 1) (num s) 0 = Some 0 /\
     tr = [TableRead [action_num s - 1; num s; 0]] /\
     s' = with_action_num 0 (with_num 0 (with_last_tick now' s)))
    \/
    (step s = 0 /\
     exists c0 v1 v2 v3 v4 v5 v6,
       c0 <> 0 /\
       table_get (action_num s - 1) (num s) 0 = Some c0 /\
       table_get (action_num s - 1) (num s) 1 = Some v1 /\
       table_get (action_num s - 1) (num s) 2 = Some v2 /\
       table_get (action_num s - 1) (num s) 3 = Some v3 /\
       table_get (action_num s - 1) (num s) 4 = Some v4 /\
       table_get (action_num s - 1) (num s) 5 = Some v5 /\
       table_get (action_num s - 1) (num s) 6 = Some v6 /\
       tr = apply_events (action_num s - 1) (num s) v1 v2 v3 v4 v5 v6 /\
       s' = with_step 1
              (with_angles [# to_uint8 v1; to_uint8 v2; to_uint8 v3;
                              to_uint8 v4; to_uint8 v5; to_uint8 v6]
                 (with_last_tick now' s)))
    \/
    (step s = 1 /\ tr = [] /\ s' = waited now' s)
    \/
    (step s <> 0 /\ step s <> 1 /\ tr = [] /\
     s' = with_step 0 (with_last_tick now' s)))).
Proof.
  intros H.
  destruct (in_play action_count s) eqn:Hp.
  2:{ rewrite action_task_idle in H by assumption.
      inversion H; subst. left. auto. }
  destruct (gate_closed now s) eqn:Hg.
  { rewrite action_task_gated in H by assumption.
    inversion H; subst. left. auto. }
  right. split; [reflexivity|]. split; [reflexivity|].
  destruct (Z.eq_dec (step s) 0) as [Hs|Hs0].
  - destruct (table_get (action_num s - 1) (num s) 0) as [c0|] eqn:H0.
    2:{ rewrite action_task_out_of_bounds in H by assumption. discriminate. }
    destruct (Z.eq_dec c0 0) as [->|Hc].
    { rewrite action_task_sentinel in H by assumption.
      inversion H; subst. left. auto. }
    right. left. split; [assumption|].
    destruct (table_get (action_num s - 1) (num s) 1) as [v1|] eqn:H1;
    [destruct (table_get (action_num s - 1) (num s) 2) as [v2|] eqn:H2;
     [destruct (table_get (action_num s - 1) (num s) 3) as [v3|] eqn:H3;
      [destruct (table_get (action_num s - 1) (num s) 4) as [v4|] eqn:H4;
       [destruct (table_get (action_num s - 1) (num s) 5) as [v5|] eqn:H5;
        [destruct (table_get (action_num s - 1) (num s) 6) as [v6|] eqn:H6|]|]|]|]|].
    1:{ rewrite (action_task_apply action action_count now now' s c0
                   v1 v2 v3 v4 v5 v6) in H by assumption.
        inversion H; subst. exists c0, v1, v2, v3, v4, v5, v6. auto 12. }
    all: exfalso; revert H;
      unfold TableDriven.action_task, bind, get, modify, ret, read_action,
        set_angle;
      rewrite Hp, Hg; cbn -[to_uint8 TableDriven.table_get];
      rewrite Hs; cbn -[to_uint8 TableDriven.table_get];
      rewrite H0; cbn -[to_uint8 TableDriven.table_get];
      apply Z.eqb_neq in Hc; rewrite Hc;
      cbn -[to_uint8 TableDriven.table_get];
      repeat (first [rewrite H1 | rewrite H2 | rewrite H3 | rewrite H4
                    | rewrite H5 | rewrite H6];
              cbn -[to_uint8 TableDriven.table_get]);
      discriminate.
  - destruct (Z.eq_dec (step s) 1) as [Hs|Hs1].
    + rewrite action_task_wait in H by assumption.
      inversion H; subst. right. right. left. auto.
    + right. right. right.
      revert H.
      unfold TableDriven.action_task, bind, get, modify, ret.
      rewrite Hp, Hg. cbn.
      apply Z.eqb_neq in Hs0, Hs1. rewrite Hs0, Hs1. cbn.
      intros H. inversion H; subst.
      apply Z.eqb_neq in Hs0, Hs1. auto.
Qed.

Lemma to_uint8_is_uint8 v : is_uint8 (to_uint8 v) = true.
Proof.
  unfold is_uint8, to_uint8.
  pose proof (Z.mod_pos_bound v 256 eq_refl) as [H1 H2].
  apply andb_true_iff. split; [apply Z.leb_le | apply Z.ltb_lt]; assumption.
Qed.

Lemma is_uint8_range v : is_uint8 v = true <-> 0 <= v < 256.
Proof.
  unfold is_uint8. rewrite andb_true_iff, Z.leb_le, Z.ltb_lt. tauto.
Qed.

Lemma well_formed_spec s :
  well_formed s = true <->
  ((step s = 0 /\ delay_count s = 0) \/
   (step s = 1 /\ 0 <= delay_count s <= 2)) /\
  0 <= num s < 256 /\
  forallb is_uint8 (vec_to_list (extended_func_angles s)) = true.
Proof.
  unfold well_formed.
  rewrite !andb_true_iff, orb_true_iff, !andb_true_iff, !Z.eqb_eq, !Z.leb_le,
    is_uint8_range.
  tauto.
Qed.

Lemma run_out_of_play clk s :
  in_play action_count s = false -> run clk s = ([], Some (tt, s)).
Proof.
  intros Hp. induction clk as [|[now now'] clk IH]; [reflexivity|].
  rewrite (run_cons action action_count now now' clk s [] s).
  - rewrite IH. reflexivity.
  - now apply action_task_idle.
Qed.

(** X1. While the request is 0 or above [action_count], calls of
    [action_task], however many and whenever made, leave the player as
    it is and evaluate no table entry. *)
Theorem out_of_range_request_is_never_played
    (clk : list (Z * Z)) (s : Player) :
  action_num s = 0 \/ action_count < action_num s ->
  run clk s = ([], Some (tt, s)).
Proof.
  intros H. apply run_out_of_play. unfold in_play.
  destruct H as [-> | H]; [reflexivity|].
  apply andb_false_iff. right. apply Z.leb_gt. exact H.
Qed.

(** X2. The gate compares the time really elapsed: if [d] milliseconds
    have passed since [last_tick] was stored, the gate is closed exactly
    when [d < 100], also when [millis()] has wrapped around 2^32 in the
    meantime. *)
Theorem gate_measures_elapsed_time (s : Player) (d : Z) :
  0 <= last_tick s < 4294967296 ->
  0 <= d < 4294967296 ->
  gate_closed (to_uint32 (last_tick s + d)) s = (d <? 100).
Proof.
  intros Hl Hd. unfold gate_closed, to_uint32.
  rewrite Zminus_mod_idemp_l.
  replace (last_tick s + d - last_tick s) with d by lia.
  now rewrite Z.mod_small by lia.
Qed.

Lemma last_tick_waited now' s : last_tick (waited now' s) = now'.
Proof.
  unfold waited. now destruct (2 <? to_uint8 (delay_count s + 1)).
Qed.

(** X3. A call that passed the gate closes it for the next 100 ms:
    whatever it did, a later call made less than 100 ms after the
    reading it stored does nothing. *)
Theorem one_effective_call_per_100ms
    (now now' t t' : Z) (s s' : Player) (tr : list event) :
  in_play action_count s = true ->
  gate_closed now s = false ->
  action_task now now' s = (tr, Some (tt, s')) ->
  to_uint32 (t - now') < 100 ->
  action_task t t' s' = ([], Some (tt, s')).
Proof.
  intros Hp Hg Hrun Ht.
  apply action_task_gated. unfold gate_closed. apply Z.ltb_lt.
  replace (last_tick s') with now'; [assumption|].
  destruct (action_task_some _ _ _ _ _ Hrun)
    as [(_ & _ & [Hp'|Hg']) | (_ & _ & Hcase)]; try congruence.
  destruct Hcase as [(_ & _ & _ & ->) | [(_ & Happly) | [(_ & _ & ->) | (_ & _ & _ & ->)]]];
    try reflexivity.
  - destruct Happly as (c0 & v1 & v2 & v3 & v4 & v5 & v6 & Happly).
    decompose [and] Happly. subst s'. reflexivity.
  - symmetry. apply last_tick_waited.
Qed.

Lemma action_task_keeps_well_formed now now' s tr s' :
  well_formed s = true ->
  action_task now now' s = (tr, Some (tt, s')) ->
  well_formed s' = true.
Proof.
  intros Hwf Hrun.
  destruct (action_task_some _ _ _ _ _ Hrun)
    as [(_ & -> & _) | (_ & _ & Hcase)]; [assumption|].
  apply well_formed_spec in Hwf as (Hstep & Hnum & Hang).
  apply well_formed_spec.
  destruct Hcase as [(Hs & _ & _ & ->) | [(Hs & Happly) | [(Hs & _ & ->) | (Hs0 & Hs1 & _ & ->)]]].
  - cbn. repeat split; trivial; lia.
  - destruct Happly as (c0 & v1 & v2 & v3 & v4 & v5 & v6 & Happly).
    decompose [and] Happly. subst s'. cbn -[to_uint8].
    rewrite !to_uint8_is_uint8. cbn.
    repeat split; trivial; lia.
  - assert (Hdc : to_uint8 (delay_count s + 1) = delay_count s + 1).
    { unfold to_uint8. apply Z.mod_small. lia. }
    pose proof (to_uint8_is_uint8 (num s + 1)) as Hu.
    apply is_uint8_range in Hu.
    unfold waited. rewrite Hdc.
    destruct (Z.ltb_spec 2 (delay_count s + 1)); cbn;
      repeat split; trivial; lia.
  - lia.
Qed.

Lemma exec_cons_task now now' calls s tr s' :
  action_task now now' s = (tr, Some (tt, s')) ->
  exec (Task now now' :: calls) s =
    (tr ++ fst (exec calls s'), snd (exec calls s')).
Proof.
  intros H. cbn [TableDriven.exec]. unfold bind. rewrite H.
  now destruct (TableDriven.exec action action_count calls s').
Qed.

Lemma exec_keeps_well_formed calls :
  forall s tr s',
    well_formed s = true ->
    exec calls s = (tr, Some (tt, s')) ->
    well_formed s' = true.
Proof.
  induction calls as [|[n|now now'] calls IH]; intros s tr s' Hwf Hrun.
  - inversion Hrun; subst. assumption.
  - cbn [TableDriven.exec] in Hrun. unfold bind, modify in Hrun.
    destruct (TableDriven.exec action action_count calls (action_set n s))
      as [tr2 r2] eqn:Hrest.
    inversion Hrun; subst. eapply IH; [|exact Hrest]. exact Hwf.
  - cbn [TableDriven.exec] in Hrun. unfold bind in Hrun.
    destruct (action_task now now' s) as [tr1 [[[] s1]|]] eqn:Hfirst;
      [|discriminate].
    destruct (TableDriven.exec action action_count calls s1)
      as [tr2 r2] eqn:Hrest.
    inversion Hrun; subst.
    eapply IH; [|exact Hrest].
    eapply action_task_keeps_well_formed; eassumption.
Qed.

(** X4. Every player a sketch can reach from the freshly constructed
    object by calls of [action_set] and [action_task], in any order and
    at any times, has [step] 0 or 1, [delay_count] at most 2 (and 0 in
    the APPLY state), and a frame index and angles within [0, 255]. *)
Theorem reachable_players_are_well_formed
    (calls : list call) (tr : list event) (s : Player) :
  exec calls power_on = (tr, Some (tt, s)) ->
  well_formed s = true.
Proof.
  intros Hrun. eapply exec_keeps_well_formed; [|exact Hrun]. reflexivity.
Qed.

(** X5. [action_task] never changes the request except to clear it,
    and it clears it only in a call that read a zero flag at
    [action[action_num-1][num][0]]; that call also resets the frame
    index and stores no angle. *)
Theorem request_is_only_ever_cleared
    (now now' : Z) (s s' : Player) (tr : list event) :
  action_task now now' s = (tr, Some (tt, s')) ->
  action_num s' = action_num s \/
  (action_num s' = 0 /\ num s' = 0 /\
   table_get (action_num s - 1) (num s) 0 = Some 0 /\
   writes tr = []).
Proof.
  intros Hrun.
  destruct (action_task_some _ _ _ _ _ Hrun)
    as [(_ & -> & _) | (_ & _ & Hcase)]; [left; reflexivity|].
  destruct Hcase as [(_ & Hflag & -> & ->) | [(_ & Happly) | [(_ & _ & ->) | (_ & _ & _ & ->)]]].
  - right. auto.
  - destruct Happly as (c0 & v1 & v2 & v3 & v4 & v5 & v6 & Happly).
    decompose [and] Happly. subst s'. left. reflexivity.
  - left. unfold waited. now destruct (2 <? to_uint8 (delay_count s + 1)).
  - left. reflexivity.
Qed.

(** X6. Play starts at the frame index the statics hold, not at
    frame 0: in the APPLY state with [num = j], the calls that pass the
    gate copy the frames of the requested row from index [j] up to the
    sentinel, in order, and then clear the request; the frames before
    [j] are not copied. *)
Theorem play_resumes_at_frame_index
    (skipped frames : list (list Z)) (stop : list Z) (rest : list (list Z))
    (s : Player) (clk : list (Z * Z)) :
  in_play action_count s = true ->
  index action (action_num s - 1) = Some (skipped ++ frames ++ stop :: rest) ->
  forallb live_frame frames = true ->
  sentinel_frame stop = true ->
  (length skipped + length frames <= 255)%nat ->
  num s = Z.of_nat (length skipped) ->
  step s = 0 -> delay_count s = 0 ->
  length clk = (4 * length frames + 1)%nat ->
  gates_open (last_tick s) clk = true ->
  exists tr s',
    run clk s = (tr, Some (tt, s')) /\
    action_state_get s' = 0 /\ num s' = 0 /\
    writes tr = flat_map copy_of frames.
Proof.
  intros Hp Hrow Hlive Hstop Hlen Hn Hs Hd Hclk Hg.
  destruct (play_frames action action_count frames skipped s clk
              (skipped ++ frames ++ stop :: rest) stop rest)
    as (tr & s' & Hrun & Ha & Hn' & _ & _ & Hw & _); trivial.
  exists tr, s'. auto.
Qed.

Lemma live_frame_columns f :
  live_frame f = true ->
  exists c0 v1 v2 v3 v4 v5 v6,
    c0 <> 0 /\
    index f 0 = Some c0 /\ index f 1 = Some v1 /\ index f 2 = Some v2 /\
    index f 3 = Some v3 /\ index f 4 = Some v4 /\ index f 5 = Some v5 /\
    index f 6 = Some v6.
Proof.
  intros H.
  destruct f as [|c0 [|v1 [|v2 [|v3 [|v4 [|v5 [|v6 more]]]]]]];
    try discriminate.
  cbn in H. apply andb_true_iff in H as [H _].
  apply negb_true_iff, Z.eqb_neq in H.
  exists c0, v1, v2, v3, v4, v5, v6. repeat split; trivial.
Qed.

Lemma all_frames_live_index row n :
  all_frames_live row = true ->
  0 <= n < 256 ->
  exists f, index row n = Some f /\ live_frame f = true.
Proof.
  unfold all_frames_live. intros H Hn.
  apply andb_true_iff in H as [Hlen Hall].
  apply Nat.leb_le in Hlen.
  destruct (lookup_lt_is_Some_2 row (Z.to_nat n)) as [f Hf]; [lia|].
  exists f. split.
  - unfold index. destruct (Z.ltb_spec n 0); [lia|assumption].
  - rewrite forallb_forall in Hall. apply Hall.
    apply list_elem_of_In, list_elem_of_lookup. exists (Z.to_nat n).
    rewrite lookup_take_lt by lia. assumption.
Qed.

Lemma endless_step row now now' s :
  index action (action_num s - 1) = Some row ->
  all_frames_live row = true ->
  well_formed s = true ->
  exists tr s',
    action_task now now' s = (tr, Some (tt, s')) /\
    action_num s' = action_num s /\ well_formed s' = true.
Proof.
  intros Hrow Hall Hwf.
  destruct (in_play action_count s) eqn:Hp.
  2:{ exists [], s. rewrite action_task_idle by assumption. auto. }
  destruct (gate_closed now s) eqn:Hg.
  { exists [], s. rewrite action_task_gated by assumption. auto. }
  assert (Hok : forall tr s', action_task now now' s = (tr, Some (tt, s')) ->
                              action_num s' = action_num s ->
                              exists tr s',
                                action_task now now' s = (tr, Some (tt, s')) /\
                                action_num s' = action_num s /\
                                well_formed s' = true).
  { intros tr s' Hrun Ha. exists tr, s'. repeat split; trivial.
    eapply action_task_keeps_well_formed; eassumption. }
  pose proof Hwf as Hwf'.
  apply well_formed_spec in Hwf' as ([[Hs _]|[Hs _]] & Hnum & _).
  - destruct (all_frames_live_index row (num s) Hall Hnum) as (f & Hf & Hlive).
    destruct (live_frame_columns f Hlive)
      as (c0 & v1 & v2 & v3 & v4 & v5 & v6 & Hc & H0 & H1 & H2 & H3 & H4 & H5 & H6).
    assert (Hget : forall c v, index f c = Some v ->
                               table_get (action_num s - 1) (num s) c = Some v).
    { intros c v Hcv. unfold TableDriven.table_get. now rewrite Hrow, Hf. }
    eapply Hok.
    + apply action_task_apply with (c0 := c0) (v1 := v1) (v2 := v2) (v3 := v3)
        (v4 := v4) (v5 := v5) (v6 := v6); auto.
    + reflexivity.
  - eapply Hok.
    + apply action_task_wait; assumption.
    + unfold waited. now destruct (2 <? to_uint8 (delay_count s + 1)).
Qed.

(** X7. The frame index is a [uint8_t]: when the first 256 frames of
    the requested row all have a nonzero flag, the index wraps from 255
    to 0 before any sentinel is read, and the action never completes:
    after any number of calls, made at any times, [action_state_get()]
    still returns the request. *)
Theorem row_of_256_live_frames_never_completes
    (row : list (list Z)) (s : Player) (clk : list (Z * Z)) :
  index action (action_num s - 1) = Some row ->
  all_frames_live row = true ->
  in_play action_count s = true ->
  well_formed s = true ->
  exists tr s',
    run clk s = (tr, Some (tt, s')) /\
    action_state_get s' = action_num s /\ action_state_get s' <> 0.
Proof.
  intros Hrow Hall Hp Hwf.
  assert (Hnz : action_num s <> 0).
  { unfold in_play in Hp. apply andb_true_iff in Hp as [Hp _].
    now apply negb_true_iff, Z.eqb_neq in Hp. }
  enough (H : exists tr s', run clk s = (tr, Some (tt, s')) /\
                            action_num s' = action_num s).
  { destruct H as (tr & s' & Hrun & Ha). exists tr, s'.
    unfold action_state_get. rewrite Ha. auto. }
  clear Hp Hnz. revert s Hrow Hwf.
  induction clk as [|[now now'] clk IH]; intros s Hrow Hwf.
  - exists [], s. auto.
  - destruct (endless_step row now now' s Hrow Hall Hwf)
      as (tr1 & s1 & Hfirst & Ha1 & Hwf1).
    destruct (IH s1) as (tr2 & s2 & Hrest & Ha2); trivial.
    { now rewrite Ha1. }
    exists (tr1 ++ tr2), s2.
    rewrite (run_cons action action_count now now' clk s tr1 s1 Hfirst).
    rewrite Hrest. split; [reflexivity|congruence].
Qed.

(** X8. The WAIT state lasts three calls that pass the gate, not two:
    entered with the counter at 0, after two such calls the player is
    still waiting on the same frame, and the third one advances the
    frame index and returns to APPLY; none of them reads the table or
    stores an angle. *)
Theorem wait_lasts_three_calls (s : Player) (c1 c2 c3 : Z * Z) :
  in_play action_count s = true ->
  step s = 1 -> delay_count s = 0 ->
  gates_open (last_tick s) [c1; c2; c3] = true ->
  run [c1; c2] s =
    ([], Some (tt, mkPlayer (action_num s) (extended_func_angles s)
                            (snd c2) 1 (num s) 2)) /\
  run [c1; c2; c3] s =
    ([], Some (tt, mkPlayer (action_num s) (extended_func_angles s)
                            (snd c3) 0 (to_uint8 (num s + 1)) 0)).
Proof.
  intros Hp Hs Hd Hg.
  destruct c1 as [a1 b1], c2 as [a2 b2], c3 as [a3 b3].
  cbn in Hg.
  repeat (apply andb_true_iff in Hg as [?G Hg]).
  repeat match goal with
         | H : negb _ = true |- _ => apply negb_true_iff in H
         end.
  destruct s as [an ang lt st n dc]. cbn in Hs, Hd. subst st dc.
  split.
  - erewrite run_cons; cycle 1.
    { apply action_task_wait; trivial. }
    erewrite run_cons; cycle 1.
    { apply action_task_wait; trivial. }
    reflexivity.
  - erewrite run_cons; cycle 1.
    { apply action_task_wait; trivial. }
    erewrite run_cons; cycle 1.
    { apply action_task_wait; trivial. }
    erewrite run_cons; cycle 1.
    { apply action_task_wait; trivial. }
    reflexivity.
Qed.


End WithTable.

Lemma out_of_range_request_is_never_played_witness :
  TableDriven.run Demo.two_actions 2 (Demo.every_100ms 100 5)
                  (action_set 3 power_on) =
    ([], Some (tt, action_set 3 power_on)).
Proof.
  apply (out_of_range_request_is_never_played Demo.two_actions 2
           (Demo.every_100ms 100 5) (action_set 3 power_on)).
  right. cbn. lia.
Defined.

Lemma gate_measures_elapsed_time_witness :
  gate_closed 60 (mkPlayer 1 [# 0; 0; 0; 0; 0; 90] 4294967246 0 0 0) = false.
Proof.
  apply (gate_measures_elapsed_time
           (mkPlayer 1 [# 0; 0; 0; 0; 0; 90] 4294967246 0 0 0) 110);
    cbn; lia.
Defined.

Lemma one_effective_call_per_100ms_witness :
  TableDriven.action_task Demo.two_actions 2 150 150 Demo.mid_action =
    ([], Some (tt, Demo.mid_action)).
Proof.
  apply (one_effective_call_per_100ms Demo.two_actions 2 100 100 150 150
           (action_set 1 power_on) Demo.mid_action
           (apply_events 0 0 10 20 30 40 50 60));
    try reflexivity.
Defined.

Lemma reachable_players_are_well_formed_witness :
  exists tr s,
    TableDriven.exec Demo.two_actions 2
      [SetAction 1; Task 100 100; SetAction 2; Task 200 200; Task 300 300]
      power_on = (tr, Some (tt, s)) /\
    well_formed s = true.
Proof.
  eexists _, _. split; [reflexivity|].
  eapply (reachable_players_are_well_formed Demo.two_actions 2
            [SetAction 1; Task 100 100; SetAction 2; Task 200 200;
             Task 300 300]).
  reflexivity.
Defined.

Lemma request_is_only_ever_cleared_witness :
  exists tr s',
    TableDriven.action_task Demo.one_frame 1 500 500 Demo.at_sentinel =
      (tr, Some (tt, s')) /\
    (action_num s' = action_num Demo.at_sentinel \/
     (action_num s' = 0 /\ num s' = 0 /\
      TableDriven.table_get Demo.one_frame
        (action_num Demo.at_sentinel - 1) (num Demo.at_sentinel) 0 = Some 0 /\
      writes tr = [])).
Proof.
  eexists _, _. split; [reflexivity|].
  apply (request_is_only_ever_cleared Demo.one_frame 1 500 500
           Demo.at_sentinel).
  reflexivity.
Defined.

Lemma play_resumes_at_frame_index_witness :
  exists tr s',
    TableDriven.run Demo.three_actions 3 (Demo.every_100ms 200 9)
      (mkPlayer 3 [# 10; 20; 30; 40; 50; 60] 100 0 1 0) =
      (tr, Some (tt, s')) /\
    action_state_get s' = 0 /\ num s' = 0 /\
    writes tr = flat_map copy_of [ [1; 7; 8; 9; 10; 11; 12];
                                   [1; 13; 14; 15; 16; 17; 18] ].
Proof.
  apply (play_resumes_at_frame_index Demo.three_actions 3
           [[1; 1; 2; 3; 4; 5; 6]]
           [[1; 7; 8; 9; 10; 11; 12]; [1; 13; 14; 15; 16; 17; 18]]
           [0; 0; 0; 0; 0; 0; 0] []);
    try reflexivity; cbn; lia.
Defined.

Lemma row_of_256_live_frames_never_completes_witness :
  exists tr s',
    TableDriven.run Demo.endless 1 (Demo.every_100ms 100 12)
                    (action_set 1 power_on) = (tr, Some (tt, s')) /\
    action_state_get s' = 1 /\ action_state_get s' <> 0.
Proof.
  apply (row_of_256_live_frames_never_completes Demo.endless 1
           (replicate 256 [1; 10; 20; 30; 40; 50; 60])
           (action_set 1 power_on) (Demo.every_100ms 100 12));
    reflexivity.
Defined.

Lemma wait_lasts_three_calls_witness :
  TableDriven.run Demo.two_actions 2 [(200, 200); (300, 300)] Demo.mid_action =
    ([], Some (tt, mkPlayer 1 [# 10; 20; 30; 40; 50; 60] 300 1 0 2)) /\
  TableDriven.run Demo.two_actions 2 [(200, 200); (300, 300); (400, 400)]
                  Demo.mid_action =
    ([], Some (tt, mkPlayer 1 [# 10; 20; 30; 40; 50; 60] 400 0 1 0)).
Proof.
  apply (wait_lasts_three_calls Demo.two_actions 2 Demo.mid_action
           (200, 200) (300, 300) (400, 400));
    reflexivity.
Defined.


End PlayerFacts.

(** ** More on the single-shot player *)

Module SimpleMore.
Import Simple.

Section WithTable.

Variable action : list (list Z).
Variable action_count : Z.

Abbreviation action_task := (Simple.action_task action action_count).

(** X10. In the single-shot sketch a request of 0 or above
    [action_count] is ignored: the call evaluates no table entry and
    leaves the player, [extended_func_angles] included, as it is. *)
Theorem single_shot_out_of_range_request_ignored (s : Player) :
  action_num s = 0 \/ action_count < action_num s ->
  action_task s = ([], Some (tt, s)).
Proof.
  intros H. unfold Simple.action_task.
  replace (in_play action_count s) with false; [reflexivity|].
  symmetry. unfold in_play.
  destruct H as [-> | H]; [reflexivity|].
  apply andb_false_iff. right. apply Z.leb_gt. exact H.
Qed.

(** X11. In the single-shot sketch a request is played once: after a
    call that ended well, a second call does nothing until
    [action_set] is called again. *)
Theorem single_shot_plays_once (s s' : Player) (tr : list event) :
  action_task s = (tr, Some (tt, s')) ->
  action_task s' = ([], Some (tt, s')).
Proof.
  intros H.
  enough (Hp : in_play action_count s' = false).
  { unfold Simple.action_task. now rewrite Hp. }
  revert H.
  unfold Simple.action_task, bind, get, modify, ret, read_action, set_angle.
  destruct (in_play action_count s) eqn:Hp.
  2:{ intros H. inversion H; subst. assumption. }
  cbn -[to_uint8 Simple.table_get].
  repeat match goal with
         | |- context [Simple.table_get ?a ?x ?c] =>
             destruct (Simple.table_get a x c);
             cbn -[to_uint8 Simple.table_get]
         end;
    intros H; inversion H; subst; reflexivity.
Qed.

End WithTable.

Lemma single_shot_out_of_range_request_ignored_witness :
  Simple.action_task Demo.poses 2 (action_set 3 power_on) =
    ([], Some (tt, action_set 3 power_on)).
Proof.
  apply (single_shot_out_of_range_request_ignored Demo.poses 2
           (action_set 3 power_on)).
  right. cbn. lia.
Defined.

Lemma single_shot_plays_once_witness :
  Simple.action_task Demo.poses 2
    (mkPlayer 0 [# 70; 80; 90; 100; 110; 120] 0 0 0 0) =
    ([], Some (tt, mkPlayer 0 [# 70; 80; 90; 100; 110; 120] 0 0 0 0)).
Proof.
  apply (single_shot_plays_once Demo.poses 2 (action_set 2 power_on)
           (mkPlayer 0 [# 70; 80; 90; 100; 110; 120] 0 0 0 0)
           (fst (Simple.action_task Demo.poses 2 (action_set 2 power_on)))).
  reflexivity.
Defined.

End SimpleMore.

(** ** More on the ESP32-Cam link *)

Module Esp32CamMore.
Import Esp32Cam Esp32CamFacts.

Section WithDevice.

Variable Device : Type.
Variable dev_transmit : Device -> byte -> list byte -> Z * Device.
Variable dev_request : Device -> byte -> Z -> list byte * Device.

Abbreviation Wire := (Esp32Cam.Wire Device).
Abbreviation WireWriteByte :=
  (Esp32Cam.WireWriteByte Device dev_transmit).
Abbreviation wireWriteDataArray :=
  (Esp32Cam.wireWriteDataArray Device dev_transmit).
Abbreviation WireReadDataArray :=
  (Esp32Cam.WireReadDataArray Device dev_transmit dev_request).
Abbreviation transaction :=
  (Esp32Cam.transaction Device dev_transmit dev_request).
Abbreviation faceDetect := (Esp32Cam.faceDetect Device dev_transmit dev_request).
Abbreviation colorDetect := (Esp32Cam.colorDetect Device dev_transmit dev_request).
Abbreviation color_position :=
  (Esp32Cam.color_position Device dev_transmit dev_request).

(** The loop stores below [len] only and returns a count between -1
    and [len]. *)
Lemma read_loop_bounds rx :
  forall i val len n val' rx',
    0 <= i <= 255 -> i <= len ->
    read_loop rx i val len = Some (n, val', rx') ->
    -1 <= n <= 255 /\ n <= len /\
    length val' = length val /\
    forall k : nat, len <= Z.of_nat k -> val' !! k = val !! k.
Proof.
  induction rx as [|b rx IH]; intros i val len n val' rx' Hi Hlen H.
  - cbn in H. inversion H; subst. repeat split; trivial; lia.
  - cbn [read_loop] in H.
    destruct (Z.leb_spec len i) as [Hge|Hlt].
    { inversion H; subst. repeat split; trivial; lia. }
    destruct (i <? Z.of_nat (length val)); [|discriminate].
    pose proof (Z.mod_pos_bound (i + 1) 256 eq_refl) as Hmod.
    pose proof (Z.mod_le (i + 1) 256 ltac:(lia) eq_refl) as Hle.
    apply IH in H as (Hn & Hnl & Hlength & Hrest);
      [|unfold to_uint8; lia|unfold to_uint8; lia].
    rewrite length_insert in Hlength.
    repeat split; trivial; try lia.
    intros k Hk. rewrite Hrest by assumption.
    apply list_lookup_insert_ne. lia.
Qed.

(** What the loop returns and stores when the count fits a [uint8_t]
    and the buffer has room for [len] bytes. *)
Lemma read_loop_exact (L : nat) rx :
  forall (j : nat) (pre val : list cell),
    (L <= 255)%nat ->
    length pre = j -> (j <= L)%nat -> (L - j <= length val)%nat ->
    read_loop rx (Z.of_nat j) (pre ++ val) (Z.of_nat L) =
      Some (if (length rx <=? L - j)%nat then Z.of_nat (j + length rx) else -1,
            pre ++ (Some <$> take (L - j) rx)
                ++ drop (min (length rx) (L - j)) val,
            drop (L - j) rx).
Proof.
  unfold cell.
  induction rx as [|b rx IH]; intros j pre val HL Hpre Hj Hval.
  - cbn. rewrite Nat.add_0_r, ?take_nil, drop_nil. reflexivity.
  - cbn [read_loop].
    destruct (Z.leb_spec (Z.of_nat L) (Z.of_nat j)) as [Hge|Hlt].
    { replace (L - j)%nat with 0%nat by lia. cbn. reflexivity. }
    destruct val as [|c val]; [cbn in Hval; lia|].
    rewrite length_app. cbn [length].
    destruct (Z.ltb_spec (Z.of_nat j) (Z.of_nat (length pre + S (length val))))
      as [_|Hbad]; [|lia].
    rewrite Nat2Z.id.
    rewrite insert_app_r_alt by lia.
    replace (j - length pre)%nat with 0%nat by lia.
    cbn [insert list_insert].
    replace (to_uint8 (Z.of_nat j + 1)) with (Z.of_nat (S j)).
    2:{ unfold to_uint8. rewrite Z.mod_small; lia. }
    replace (pre ++ Some b :: val) with ((pre ++ [Some b]) ++ val)
      by now rewrite <- app_assoc.
    rewrite (IH (S j) (pre ++ [Some b]) val); trivial.
    + destruct (L - j)%nat as [|m] eqn:Hm; [lia|].
      replace (L - S j)%nat with m by lia.
      cbn [length take drop fmap list_fmap Nat.min].
      rewrite <- app_assoc. cbn [app].
      replace (S j + length rx)%nat with (j + S (length rx))%nat by lia.
      reflexivity.
    + rewrite length_app. cbn. lia.
    + lia.
    + cbn in Hval. lia.
Qed.

Lemma write_loop_queues (data : list byte) :
  forall (pre tail : list cell) (w : Wire),
    write_loop Device (length data) (Z.of_nat (length pre))
               (pre ++ (Some <$> data) ++ tail) w =
      Some (tt, mkWire (tx_addr w) (tx_buf w ++ data) (rx_buf w) (dev w) (log w)).
Proof.
  induction data as [|b data IH]; intros pre tail w.
  - cbn. rewrite app_nil_r. now destruct w.
  - cbn [length write_loop fmap list_fmap app].
    rewrite TableDrivenFacts.index_middle.
    replace (Z.of_nat (length pre) + 1) with (Z.of_nat (length (pre ++ [Some b])))
      by (rewrite length_app; cbn; lia).
    replace (pre ++ Some b :: (Some <$> data) ++ tail)
      with ((pre ++ [Some b]) ++ (Some <$> data) ++ tail)
      by now rewrite <- app_assoc.
    rewrite IH. unfold write. cbn. now rewrite <- app_assoc.
Qed.

(** X12. [wireWriteDataArray] sends one transmission to [addr] that
    carries the register byte followed by the first [len] bytes of the
    buffer, in order (the register alone when [len] is 0), and returns
    [true] exactly when the device's status is 0. The 32-byte transmit
    buffer of [Wire] is taken into account by the bound on [len]. *)
Theorem wireWriteDataArray_sends_register_then_data
    (addr reg : byte) (data : list byte) (tail : list cell) (w : Wire) :
  (length data <= 31)%nat ->
  wireWriteDataArray addr reg ((Some <$> data) ++ tail)
                     (Z.of_nat (length data)) w =
    Some (fst (dev_transmit (dev w) addr (reg :: data)) =? 0,
          mkWire addr [] (rx_buf w)
                 (snd (dev_transmit (dev w) addr (reg :: data)))
                 (log w ++ [Transmit addr (reg :: data)
                              (fst (dev_transmit (dev w) addr (reg :: data)))])).
Proof.
  intros _. unfold Esp32Cam.wireWriteDataArray.
  rewrite Nat2Z.id.
  rewrite (write_loop_queues data [] tail).
  unfold endTransmission, write, beginTransmission. cbn.
  destruct (dev_transmit (dev w) addr (reg :: data)) as [status d]. cbn.
  now destruct (status =? 0).
Qed.

Lemma write_loop_past_end (n : nat) :
  forall (i : Z) (val : list cell) (w : Wire),
    0 <= i <= Z.of_nat (length val) ->
    Z.of_nat (length val) < i + Z.of_nat n ->
    write_loop Device n i val w = None.
Proof.
  unfold cell.
  induction n as [|n IH]; intros i val w Hi Hlen; [lia|].
  cbn [write_loop].
  destruct (@index cell val i) as [[b|]|] eqn:Hidx; trivial.
  unfold index in Hidx.
  destruct (Z.ltb_spec i 0); [discriminate|].
  apply lookup_lt_Some in Hidx.
  apply IH; unfold cell in *; lia.
Qed.

(** X13. [len] is not checked against the buffer: asked for more bytes
    than the buffer holds, [wireWriteDataArray] reads past its end. *)
Theorem wireWriteDataArray_reads_past_short_buffer
    (addr reg : byte) (val : list cell) (len : Z) (w : Wire) :
  Z.of_nat (length val) < len ->
  wireWriteDataArray addr reg val len w = None.
Proof.
  intros Hlen. unfold Esp32Cam.wireWriteDataArray.
  rewrite write_loop_past_end; [reflexivity|lia|lia].
Qed.

(** The read of a register that is not acknowledged. *)
Lemma WireReadDataArray_nack reg val len (w : Wire) :
  fst (dev_transmit (dev w) ESP32CAM_ADDR [reg]) <> 0 ->
  WireReadDataArray reg val len w =
    Some ((-1, val),
          mkWire ESP32CAM_ADDR [] (rx_buf w)
                 (snd (dev_transmit (dev w) ESP32CAM_ADDR [reg]))
                 (log w ++ [Transmit ESP32CAM_ADDR [reg]
                              (fst (dev_transmit (dev w) ESP32CAM_ADDR [reg]))])).
Proof.
  intros Hst.
  unfold Esp32Cam.WireReadDataArray, bbind, Esp32Cam.WireWriteByte,
    endTransmission, write, beginTransmission. cbn.
  destruct (dev_transmit (dev w) ESP32CAM_ADDR [reg]) as [status d]. cbn in *.
  apply Z.eqb_neq in Hst. rewrite Hst. reflexivity.
Qed.

(** X14. Whatever the device sends, [WireReadDataArray] stores into
    the first [len] cells of the buffer only, keeps its length, and
    returns a count between -1 and [len] (and at most 255, the counter
    being an [unsigned char]). *)
Theorem WireReadDataArray_stays_in_bounds
    (reg : byte) (val val' : list cell) (len n : Z) (w w' : Wire) :
  0 <= len ->
  WireReadDataArray reg val len w = Some ((n, val'), w') ->
  -1 <= n <= 255 /\ n <= len /\
  length val' = length val /\
  forall k : nat, len <= Z.of_nat k -> val' !! k = val !! k.
Proof.
  intros Hlen.
  unfold Esp32Cam.WireReadDataArray, bbind, Esp32Cam.WireWriteByte.
  destruct (endTransmission Device dev_transmit
              (write Device reg (beginTransmission Device ESP32CAM_ADDR w)))
    as [status w1].
  destruct (status =? 0); cbn.
  - destruct (read_loop (rx_buf (requestFrom Device dev_request
                                   ESP32CAM_ADDR len w1)) 0 val len)
      as [[[n0 val0] rx0]|] eqn:Hloop; [|discriminate].
    intros H. inversion H; subst.
    eapply read_loop_bounds; [| |exact Hloop]; lia.
  - unfold bret. intros H. inversion H; subst. repeat split; trivial; lia.
Qed.

(** X15. When the address write is acknowledged, [len] is at most 255
    and the buffer has room for [len] bytes, [WireReadDataArray]
    returns the number of bytes the device sent if that is at most
    [len], and -1 if it sent more; the buffer then begins with the
    bytes received (at most [len] of them) and is unchanged after
    them. Bytes beyond [len] stay in the receive buffer. *)
Theorem WireReadDataArray_counts_bytes
    (reg : byte) (val : list cell) (len : Z) (w : Wire)
    (d1 d2 : Device) (bytes : list byte) :
  0 <= len <= 255 ->
  len <= Z.of_nat (length val) ->
  dev_transmit (dev w) ESP32CAM_ADDR [reg] = (0, d1) ->
  dev_request d1 ESP32CAM_ADDR len = (bytes, d2) ->
  exists w',
    WireReadDataArray reg val len w =
      Some ((if Z.of_nat (length bytes) <=? len
             then Z.of_nat (length bytes) else -1,
             (Some <$> take (Z.to_nat len) bytes)
               ++ drop (min (length bytes) (Z.to_nat len)) val),
            w') /\
    dev w' = d2 /\ rx_buf w' = drop (Z.to_nat len) bytes.
Proof.
  intros Hlen Hroom Ht Hr.
  unfold Esp32Cam.WireReadDataArray, bbind, Esp32Cam.WireWriteByte,
    endTransmission, write, beginTransmission. cbn.
  rewrite Ht. cbn. unfold requestFrom. cbn. rewrite Hr. cbn.
  pose proof (read_loop_exact (Z.to_nat len) bytes 0 [] val) as Hloop.
  rewrite Nat.sub_0_r, Z2Nat.id in Hloop by lia.
  change (Z.of_nat 0) with 0 in Hloop. cbn [app] in Hloop.
  replace (if (length bytes <=? Z.to_nat len)%nat
           then Z.of_nat (0 + length bytes) else -1)
    with (if Z.of_nat (length bytes) <=? len
          then Z.of_nat (length bytes) else -1) in Hloop.
  2:{ destruct (Nat.leb_spec (length bytes) (Z.to_nat len));
        destruct (Z.leb_spec (Z.of_nat (length bytes)) len); trivial; lia. }
  rewrite Hloop by (trivial; unfold cell in *; lia).
  eexists. split; [reflexivity|]. split; reflexivity.
Qed.

(** X16. When the write of the register address is not acknowledged,
    [WireReadDataArray] returns -1 at once: no bytes are requested from
    the device, and the buffer and the receive buffer are as before. *)
Theorem WireReadDataArray_aborts_on_failed_write
    (reg : byte) (val : list cell) (len : Z) (w : Wire) :
  fst (dev_transmit (dev w) ESP32CAM_ADDR [reg]) <> 0 ->
  exists w',
    WireReadDataArray reg val len w = Some ((-1, val), w') /\
    rx_buf w' = rx_buf w /\
    dev w' = snd (dev_transmit (dev w) ESP32CAM_ADDR [reg]) /\
    log w' = log w ++ [Transmit ESP32CAM_ADDR [reg]
                         (fst (dev_transmit (dev w) ESP32CAM_ADDR [reg]))].
Proof.
  intros Hst. rewrite WireReadDataArray_nack by assumption.
  eexists. repeat split.
Qed.

Lemma registers_addressed_app ops1 ops2 :
  registers_addressed (ops1 ++ ops2) =
    registers_addressed ops1 ++ registers_addressed ops2.
Proof. unfold registers_addressed. apply flat_map_app. Qed.

Lemma color_position_4 reg color_info (w : Wire) :
  length color_info = 4%nat ->
  color_position reg color_info w =
    Some ((box_detected (fst (fst (transaction reg (dev w)))),
           snd (read_result (fst (fst (transaction reg (dev w)))) color_info)),
          after Device w (transaction reg (dev w))).
Proof.
  intros Hlen. unfold Esp32Cam.color_position, bbind.
  rewrite WireReadDataArray_4 by assumption.
  rewrite complete_and_wide_result by assumption. unfold bret.
  now destruct (box_detected (fst (fst (transaction reg (dev w))))).
Qed.

Lemma faceDetect_4 (w : Wire) :
  faceDetect w =
    Some (box_detected (fst (fst (transaction x01 (dev w)))),
          after Device w (transaction x01 (dev w))).
Proof.
  unfold Esp32Cam.faceDetect, bbind.
  rewrite WireReadDataArray_4 by reflexivity.
  rewrite complete_and_wide_result by reflexivity. unfold bret.
  now destruct (box_detected (fst (fst (transaction x01 (dev w))))).
Qed.

(** X17. [faceDetect] performs exactly one read transaction, at
    register 0x01, and returns [true] exactly when the device
    acknowledged the address and answered with exactly four bytes
    whose third byte is not zero; it never reads its uninitialised
    local buffer. *)
Theorem faceDetect_detects_box_at_register_1 (w : Wire) :
  faceDetect w =
    Some (box_detected (fst (fst (transaction x01 (dev w)))),
          after Device w (transaction x01 (dev w))) /\
  registers_addressed (snd (transaction x01 (dev w))) = [x01].
Proof. split; [apply faceDetect_4 | apply transaction_registers]. Qed.

(** X18. [color_position] on a four-cell buffer returns [true] exactly
    when the device acknowledged the address and answered with exactly
    four bytes whose third byte is not zero, and [false] in every other
    case; either way the buffer is what the read left in it and the bus
    has seen this one transaction. *)
Theorem color_position_result
    (reg : byte) (color_info : list cell) (w : Wire) :
  length color_info = 4%nat ->
  color_position reg color_info w =
    Some ((box_detected (fst (fst (transaction reg (dev w)))),
           snd (read_result (fst (fst (transaction reg (dev w)))) color_info)),
          after Device w (transaction reg (dev w))).
Proof. apply color_position_4. Qed.

(** X19. In the clamp sketch [faceDetect] and [color_position] read
    the same register: from the same state of the bus and the device
    they return the same answer and leave the bus in the same state. *)
Theorem faceDetect_agrees_with_color_position_clamp
    (color_info : list cell) (w : Wire) :
  length color_info = 4%nat ->
  exists b color_info' w',
    faceDetect w = Some (b, w') /\
    color_position_clamp Device dev_transmit dev_request color_info w =
      Some ((b, color_info'), w').
Proof.
  intros Hlen. unfold color_position_clamp.
  rewrite faceDetect_4, color_position_4 by assumption.
  eexists _, _, _. split; reflexivity.
Qed.

(** X20. The result of [colorDetect] is 0, 1, 2 or 3 and tells how
    many registers were read: a result [c] other than 0 means that
    exactly the registers 0x00 up to [c - 1] were addressed, and 0
    means that all three were. *)
Theorem colorDetect_code_counts_reads (w w' : Wire) (c : Z) :
  colorDetect w = Some (c, w') ->
  (c = 0 \/ c = 1 \/ c = 2 \/ c = 3) /\
  registers_addressed (log w') =
    registers_addressed (log w)
      ++ take (if c =? 0 then 3%nat else Z.to_nat c) [x00; x01; x02].
Proof.
  rewrite (colorDetect_scan Device dev_transmit dev_request w). cbv zeta.
  set (t0 := transaction x00 (dev w)).
  set (w0 := after Device w t0).
  set (t1 := transaction x01 (dev w0)).
  set (w1 := after Device w0 t1).
  set (t2 := transaction x02 (dev w1)).
  set (w2 := after Device w1 t2).
  assert (L0 : registers_addressed (log w0) = registers_addressed (log w) ++ [x00]).
  { unfold w0. rewrite after_log, registers_addressed_app.
    unfold t0. now rewrite transaction_registers. }
  assert (L1 : registers_addressed (log w1)
               = registers_addressed (log w) ++ [x00; x01]).
  { unfold w1. rewrite after_log, registers_addressed_app, L0.
    unfold t1. rewrite transaction_registers. now rewrite <- app_assoc. }
  assert (L2 : registers_addressed (log w2)
               = registers_addressed (log w) ++ [x00; x01; x02]).
  { unfold w2. rewrite after_log, registers_addressed_app, L1.
    unfold t2. rewrite transaction_registers. now rewrite <- app_assoc. }
  clearbody w0 w1 w2 t0 t1 t2.
  destruct (box_detected (fst (fst t0)));
    [|destruct (box_detected (fst (fst t1)));
      [|destruct (box_detected (fst (fst t2)))]];
    intros H; inversion H; subst; cbn; auto 6.
Qed.


(** X22. The two sketches ask different registers for the position:
    [color_position] of the clamp sketch addresses register 0x01 and
    that of the trace sketch register 0x02, each once. *)
Theorem color_position_sketches_read_different_registers
    (color_info : list cell) (w : Wire) :
  length color_info = 4%nat ->
  exists r1 w1 r2 w2,
    color_position_clamp Device dev_transmit dev_request color_info w
      = Some (r1, w1) /\
    registers_addressed (log w1) = registers_addressed (log w) ++ [x01] /\
    color_position_trace Device dev_transmit dev_request color_info w
      = Some (r2, w2) /\
    registers_addressed (log w2) = registers_addressed (log w) ++ [x02].
Proof.
  intros Hlen. unfold color_position_clamp, color_position_trace.
  rewrite !color_position_4 by assumption.
  eexists _, _, _, _.
  split; [reflexivity|]. split; [|split; [reflexivity|]];
    rewrite after_log, registers_addressed_app, transaction_registers;
    reflexivity.
Qed.

End WithDevice.

Lemma wireWriteDataArray_sends_register_then_data_witness :
  exists w',
    Esp32Cam.wireWriteDataArray Cam cam_transmit x52 x03
      [Some x01; Some x02; None] 2 (cam_wire Demo.cam_red_blue) =
      Some (true, w') /\
    log w' = [Transmit x52 [x03; x01; x02] 0].
Proof.
  eexists. split.
  - apply (wireWriteDataArray_sends_register_then_data Cam cam_transmit
             x52 x03 [x01; x02] [None] (cam_wire Demo.cam_red_blue)).
    cbn. lia.
  - reflexivity.
Defined.

Lemma wireWriteDataArray_reads_past_short_buffer_witness :
  Esp32Cam.wireWriteDataArray Cam cam_transmit x52 x03 [Some x01] 2
    (cam_wire Demo.cam_red_blue) = None.
Proof.
  apply (wireWriteDataArray_reads_past_short_buffer Cam cam_transmit
           x52 x03 [Some x01] 2 (cam_wire Demo.cam_red_blue)).
  cbn. lia.
Defined.

Lemma WireReadDataArray_stays_in_bounds_witness :
  -1 <= 2 <= 255 /\ 2 <= 4 /\
  length [Some x07; Some x09; Some x00; Some x00] = length Demo.zeros4 /\
  forall k : nat,
    4 <= Z.of_nat k ->
    [Some x07; Some x09; Some x00; Some x00] !! k = Demo.zeros4 !! k.
Proof.
  eapply (WireReadDataArray_stays_in_bounds Cam cam_transmit cam_request
            x01 Demo.zeros4 [Some x07; Some x09; Some x00; Some x00] 4 2
            (cam_wire Demo.cam_short)).
  - lia.
  - reflexivity.
Defined.

Lemma WireReadDataArray_counts_bytes_witness :
  exists w',
    Esp32Cam.WireReadDataArray Cam cam_transmit cam_request x02 Demo.zeros4 3
      (cam_wire Demo.cam_red_blue) =
      Some ((-1, [Some x05; Some x06; Some x07; Some x00]), w') /\
    dev w' = mkCam x02 (registers Demo.cam_red_blue) false /\
    rx_buf w' = [x08].
Proof.
  apply (WireReadDataArray_counts_bytes Cam cam_transmit cam_request
           x02 Demo.zeros4 3 (cam_wire Demo.cam_red_blue)
           (mkCam x02 (registers Demo.cam_red_blue) false)
           (mkCam x02 (registers Demo.cam_red_blue) false)
           [x05; x06; x07; x08]);
    try reflexivity; cbn; lia.
Defined.

Lemma WireReadDataArray_aborts_on_failed_write_witness :
  exists w',
    Esp32Cam.WireReadDataArray Cam cam_transmit cam_request x01 Demo.zeros4 4
      (cam_wire Demo.cam_absent) = Some ((-1, Demo.zeros4), w') /\
    rx_buf w' = [] /\
    dev w' = Demo.cam_absent /\
    log w' = [Transmit x52 [x01] 2].
Proof.
  apply (WireReadDataArray_aborts_on_failed_write Cam cam_transmit cam_request
           x01 Demo.zeros4 4 (cam_wire Demo.cam_absent)).
  discriminate.
Defined.

Lemma color_position_result_witness :
  fst <$> Esp32Cam.color_position Cam cam_transmit cam_request x02 Demo.zeros4
            (cam_wire Demo.cam_red_blue) =
    Some (true, [Some x05; Some x06; Some x07; Some x08]).
Proof.
  rewrite (color_position_result Cam cam_transmit cam_request x02
             Demo.zeros4 (cam_wire Demo.cam_red_blue) eq_refl).
  reflexivity.
Defined.

Lemma faceDetect_agrees_with_color_position_clamp_witness :
  exists b color_info' w',
    Esp32Cam.faceDetect Cam cam_transmit cam_request
                        (cam_wire Demo.cam_red_blue) = Some (b, w') /\
    color_position_clamp Cam cam_transmit cam_request Demo.zeros4
                         (cam_wire Demo.cam_red_blue) =
      Some ((b, color_info'), w').
Proof.
  apply (faceDetect_agrees_with_color_position_clamp Cam cam_transmit
           cam_request Demo.zeros4 (cam_wire Demo.cam_red_blue)).
  reflexivity.
Defined.

Lemma colorDetect_code_counts_reads_witness :
  exists w',
    Esp32Cam.colorDetect Cam cam_transmit cam_request
                         (cam_wire Demo.cam_red_blue) = Some (1, w') /\
    registers_addressed (log w') = [x00].
Proof.
  eexists. split; [reflexivity|].
  exact (proj2 (colorDetect_code_counts_reads Cam cam_transmit cam_request
                  (cam_wire Demo.cam_red_blue) _ 1 eq_refl)).
Defined.


Lemma color_position_sketches_read_different_registers_witness :
  exists r1 w1 r2 w2,
    color_position_clamp Cam cam_transmit cam_request Demo.zeros4
                         (cam_wire Demo.cam_red_blue) = Some (r1, w1) /\
    registers_addressed (log w1) = [x01] /\
    color_position_trace Cam cam_transmit cam_request Demo.zeros4
                         (cam_wire Demo.cam_red_blue) = Some (r2, w2) /\
    registers_addressed (log w2) = [x02].
Proof.
  apply (color_position_sketches_read_different_registers Cam cam_transmit
           cam_request Demo.zeros4 (cam_wire Demo.cam_red_blue)).
  reflexivity.
Defined.

End Esp32CamMore.
